(** * Casa Rubia: the reservation server and the rooms page

    A shallow embedding of [server.js] (the Express routes over the SQLite
    table [reservations]) and of [script.js]: the rooms page (date
    validation, availability refresh, reservation modal and form) and the
    contact form. *)

From Stdlib Require Import ZArith String Ascii.
From stdpp Require Import base decidable option list sorting strings gmap.

Local Open Scope string_scope.
Local Open Scope list_scope.
Local Open Scope Z_scope.

(** ** Text comparison

    The columns [checkIn] and [checkOut] are declared [TEXT] and the query
    parameters are bound as strings, so SQLite compares them with its
    default BINARY collation: byte by byte, a proper prefix being smaller.
    That is the order [String.le] of stdpp (built on [String.leb]). *)

Definition str_ge (s t : string) : Prop := (t ≤ s)%string.
Definition str_lt (s t : string) : Prop := strict String.le s t.

Infix "≥" := str_ge : string_scope.
Infix "<" := str_lt : string_scope.

#[global] Instance str_ge_dec : RelDecision str_ge.
Proof. intros s t. unfold str_ge. apply _. Defined.

#[global] Instance str_lt_dec : RelDecision str_lt.
Proof. intros s t. unfold str_lt, strict. apply _. Defined.

(** ** Numbers and bytes *)

(** The JavaScript number an integer of SQLite becomes in node-sqlite3 (a
    column value, [this.lastID]): integers up to [2^53] in absolute value
    are numbers themselves; beyond, the nearest double is taken, which keeps
    the 53 leading bits, rounding to nearest with ties to the even one. *)
Definition to_number (z : Z) : Z :=
  let n := Z.abs z in
  if n <=? 2 ^ 53 then z
  else
    let e := Z.log2 n - 52 in
    let q := n / 2 ^ e in
    let r := n mod 2 ^ e in
    let half := 2 ^ (e - 1) in
    let q' := if r <? half then q
              else if half <? r then q + 1
              else if Z.even q then q else q + 1 in
    Z.sgn z * (q' * 2 ^ e).

(** The code of a byte. *)
Definition code (c : ascii) : Z := Z.of_N (N_of_ascii c).

(** ** Data: rooms and reservations *)

Module Room.
Record t := mk
  { id : Z; name : string; type : string; ac : bool; price : Z; capacity : Z }.
End Room.

Module Reservation.
(** One row of the table [reservations]. *)
Record t := mk
  { id : Z; roomId : Z; name : string; email : string; phone : string;
    checkIn : string; checkOut : string; created : string }.
End Reservation.

#[global] Instance room_eq_dec : EqDecision Room.t.
Proof. solve_decision. Defined.

#[global] Instance reservation_eq_dec : EqDecision Reservation.t.
Proof. solve_decision. Defined.

(** The catalog, as written in [server.js] (and again in [script.js]). *)
Definition rooms : list Room.t :=
  [ Room.mk 1 "Habitación 1" "Con ventilador" false 30000 2;
    Room.mk 2 "Habitación 2" "Con ventilador" false 30000 2;
    Room.mk 3 "Habitación 3" "Con ventilador" false 30000 2;
    Room.mk 4 "Habitación 4" "Con ventilador" false 30000 2;
    Room.mk 5 "Habitación 5" "Con ventilador" false 30000 2;
    Room.mk 6 "Habitación 6" "Con ventilador" false 30000 2;
    Room.mk 7 "Habitación 7" "Con aire acondicionado" true 60000 2;
    Room.mk 8 "Habitación 8" "Con aire acondicionado" true 60000 2;
    Room.mk 9 "Habitación 9" "Con aire acondicionado" true 60000 2;
    Room.mk 10 "Habitación 10" "Con aire acondicionado" true 60000 2;
    Room.mk 11 "Habitación 11" "Con aire acondicionado" true 60000 2;
    Room.mk 12 "Habitación 12" "Con aire acondicionado" true 60000 2 ].

(** ** The SQLite store

    The table and the counter SQLite keeps for an [AUTOINCREMENT] key (the
    row of [sqlite_sequence]): the largest rowid the table ever held. *)

Record database := mkdb
  { reservations : list Reservation.t; sqlite_sequence : Z }.

(** What the world decides for one request: whether the engine reports an
    error to the callback (I/O fault, locked file, full disk), and what
    [datetime('now')] reads. *)
Record world := mkworld { err : bool; now : string }.

(** Largest value of a 64-bit signed rowid. *)
Definition MAX_ROWID : Z := 2 ^ 63 - 1.

(** Largest rowid in the table, 0 when it is empty. *)
Definition max_rowid (rows : list Reservation.t) : Z :=
  foldr (λ r m, Z.max (Reservation.id r) m) 0 rows.

(** The largest rowid that has ever existed in the table. *)
Definition last_rowid (d : database) : Z :=
  Z.max (sqlite_sequence d) (max_rowid (reservations d)).

(** The [WHERE] clause the handler builds: none, or
    [NOT (checkOut <= ? OR checkIn >= ?)] with its two parameters. *)
Inductive where_clause :=
  | NoWhere
  | NotEndedOrNotStarted (p1 p2 : string).

Definition matches (w : where_clause) (r : Reservation.t) : Prop :=
  match w with
  | NoWhere => True
  | NotEndedOrNotStarted p1 p2 =>
      ¬ ((Reservation.checkOut r ≤ p1)%string ∨ (Reservation.checkIn r ≥ p2)%string)
  end.

#[global] Instance matches_dec w r : Decision (matches w r).
Proof. destruct w; simpl; apply _. Defined.

(** A row as JavaScript receives it: the two integer columns as numbers. *)
Definition js_row (r : Reservation.t) : Reservation.t :=
  Reservation.mk (to_number (Reservation.id r)) (to_number (Reservation.roomId r))
    (Reservation.name r) (Reservation.email r) (Reservation.phone r)
    (Reservation.checkIn r) (Reservation.checkOut r) (Reservation.created r).

(** [db.all(sql, params, callback)]: the rows selected, as JavaScript
    objects, or [None] when the callback receives [err]. *)
Definition db_all (e : world) (w : where_clause) (d : database)
  : option (list Reservation.t) :=
  if err e then None else Some (js_row <$> filter (matches w) (reservations d)).

(** The values bound to the six placeholders of the [INSERT]. *)
Record insert_args := mkargs
  { a_roomId : Z; a_name : string; a_email : string; a_phone : string;
    a_checkIn : string; a_checkOut : string }.

(** The row an [INSERT] of [a] writes under key [i] at time [t]. *)
Definition row_of (i : Z) (a : insert_args) (t : string) : Reservation.t :=
  Reservation.mk i (a_roomId a) (a_name a) (a_email a) (a_phone a)
    (a_checkIn a) (a_checkOut a) t.

(** [stmt.run(...)] of the [INSERT]: the key is one more than the largest
    rowid the table ever held; the engine refuses the insert ([SQLITE_FULL])
    once the largest possible rowid has been used.  The result is
    [this.lastID], the new key as a JavaScript number, and the new store,
    or [None] when the callback receives [err] (the store is then
    unchanged). *)
Definition stmt_run (e : world) (a : insert_args) (d : database)
  : option (Z * database) :=
  if err e then None
  else if MAX_ROWID <=? last_rowid d then None
  else
    let rowid := last_rowid d + 1 in
    Some (to_number rowid, mkdb (reservations d ++ [row_of rowid a (now e)]) rowid).

(** ** HTTP messages *)

Module Query.
(** [req.query]: a parameter is absent or a string. *)
Record t := mk { checkIn : option string; checkOut : option string }.
End Query.

Module Body.
(** [req.body] of a reservation: a key is absent (or [null]), or holds
    what the form sends, a number for [roomId] (taken among the integers)
    and strings elsewhere. *)
Record t := mk
  { roomId : option Z; name : option string; email : option string;
    phone : option string; checkIn : option string; checkOut : option string }.
End Body.

Inductive request :=
  | GET (path : string) (query : Query.t)
  | POST (path : string) (body : Body.t).

Inductive json :=
  | JRooms (l : list Room.t)
  | JRows (rows : list Reservation.t)
  | JId (id : Z)
  | JError (error : string).

(** A response body is JSON ([res.json]) or the HTML page of Express'
    final handler. *)
Inductive payload :=
  | Json (j : json)
  | Html (text : string).

Record response := mkres { status : Z; body : payload }.

(** [res.json(x)] and [res.status(n).json(x)]. *)
Definition res_json (j : json) : response := mkres 200 (Json j).
Definition res_status_json (n : Z) (j : json) : response := mkres n (Json j).

(** JavaScript truthiness of a value that is absent, or a string, or a
    number: [""], [0] and [undefined] are falsy.  The truthy value is
    returned. *)
Definition truthy_str (x : option string) : option string :=
  s ← x; if decide (s = "") then None else Some s.

Definition truthy_num (x : option Z) : option Z :=
  n ← x; if decide (n = 0) then None else Some n.

(** ** The routes of [server.js] *)

(** [app.get('/api/rooms', ...)] over the array the server holds. *)
Definition get_rooms (catalog : list Room.t) : response :=
  res_json (JRooms catalog).

(** [app.get('/api/reservations', ...)] *)
Definition get_reservations (e : world) (q : Query.t) (d : database) : response :=
  let sql :=
    match truthy_str (Query.checkIn q), truthy_str (Query.checkOut q) with
    | Some checkIn, Some checkOut => NotEndedOrNotStarted checkIn checkOut
    | _, _ => NoWhere
    end in
  match db_all e sql d with
  | None => res_status_json 500 (JError "Database error")
  | Some rows => res_json (JRows rows)
  end.

(** The six fields of the body when all are truthy. *)
Definition required (b : Body.t) : option insert_args :=
  roomId ← truthy_num (Body.roomId b);
  name ← truthy_str (Body.name b);
  email ← truthy_str (Body.email b);
  phone ← truthy_str (Body.phone b);
  checkIn ← truthy_str (Body.checkIn b);
  checkOut ← truthy_str (Body.checkOut b);
  Some (mkargs roomId name email phone checkIn checkOut).

(** [app.post('/api/reservations', ...)] *)
Definition post_reservations (e : world) (b : Body.t) (d : database)
  : response * database :=
  match required b with
  | None => (res_status_json 400 (JError "Datos incompletos"), d)
  | Some a =>
      match stmt_run e a d with
      | None => (res_status_json 500 (JError "Error al guardar la reserva"), d)
      | Some (lastID, d') => (res_json (JId lastID), d')
      end
  end.

(** The process: the store and the array [rooms] it holds. *)
Record server := mksrv { db : database; catalog : list Room.t }.

Definition boot (d : database) : server := mksrv d rooms.

(** Express matches the path of a request against the path of a route
    with its default options: letter case is ignored and one trailing
    slash is allowed. *)
Definition lower (c : ascii) : ascii :=
  if (65 <=? code c) && (code c <=? 90) then ascii_of_N (Z.to_N (code c + 32)) else c.

Fixpoint lowercase (s : string) : string :=
  match s with
  | EmptyString => EmptyString
  | String c s' => String (lower c) (lowercase s')
  end.

Definition route (pattern path : string) : bool :=
  bool_decide (lowercase path = lowercase pattern)
  || bool_decide (lowercase path = lowercase pattern +:+ "/").

(** Express dispatches on method and path, the routes in the order they
    were added; a request no route matches gets the 404 page of the final
    handler. *)
Definition app (e : world) (req : request) (s : server) : response * server :=
  match req with
  | GET path q =>
      if route "/api/rooms" path then (get_rooms (catalog s), s)
      else if route "/api/reservations" path
      then (get_reservations e q (db s), s)
      else (mkres 404 (Html ("Cannot GET " +:+ path)), s)
  | POST path b =>
      if route "/api/reservations" path
      then let '(res, d') := post_reservations e b (db s) in
           (res, mksrv d' (catalog s))
      else (mkres 404 (Html ("Cannot POST " +:+ path)), s)
  end.

(** A run of the server over a list of requests, each with what the world
    decides for it; the responses come back in order. *)
Fixpoint serve (reqs : list (world * request)) (s : server)
  : list response * server :=
  match reqs with
  | [] => ([], s)
  | (e, req) :: reqs' =>
      let '(res, s') := app e req s in
      let '(ress, s'') := serve reqs' s' in
      (res :: ress, s'')
  end.

(** ** Calendar dates and JavaScript [Date]

    The two date fields of the page are [<input type="date">]: their value
    is the empty string or a date [yyyy-mm-dd]. *)

Record date := mkdate { year : Z; month : Z; day : Z }.

#[global] Instance date_eq_dec : EqDecision date.
Proof. solve_decision. Defined.

Definition InLeapYear (y : Z) : bool :=
  ((y mod 4 =? 0) && negb (y mod 100 =? 0)) || (y mod 400 =? 0).

Definition DaysInMonth (y m : Z) : Z :=
  if decide (m = 2) then (if InLeapYear y then 29 else 28)
  else if decide (m = 4 ∨ m = 6 ∨ m = 9 ∨ m = 11) then 30
  else 31.

(** A day of the calendar in a year from 1 to 9999: the dates whose year
    both formats below write with four digits.  (A date field can hold
    later years as well.) *)
Definition valid_date (d : date) : Prop :=
  1 ≤ year d ≤ 9999 ∧ 1 ≤ month d ≤ 12 ∧ 1 ≤ day d ≤ DaysInMonth (year d) (month d).

#[global] Instance valid_date_dec d : Decision (valid_date d).
Proof. unfold valid_date. apply _. Defined.

(** ECMAScript's day number of the first day of year [y] (0 for 1970). *)
Definition DayFromYear (y : Z) : Z :=
  365 * (y - 1970) + (y - 1969) / 4 - (y - 1901) / 100 + (y - 1601) / 400.

(** Days of the year before the first of month [m]. *)
Definition DaysBeforeMonth (y m : Z) : Z :=
  nth (Z.to_nat (m - 1)) [0; 31; 59; 90; 120; 151; 181; 212; 243; 273; 304; 334] 0
  + (if InLeapYear y && (2 <? m) then 1 else 0).

(** [MakeDay]: the day number of a date. *)
Definition MakeDay (d : date) : Z :=
  DayFromYear (year d) + DaysBeforeMonth (year d) (month d) + day d - 1.

Definition msPerDay : Z := 86400000.

(** A [Date] object made from the value of a date field: [Invalid Date]
    (time value NaN) for the empty string, else midnight UTC of the day. *)
Inductive Date :=
  | InvalidDate
  | Midnight (d : date).

Definition new_Date (value : option date) : Date :=
  match value with None => InvalidDate | Some d => Midnight d end.

(** The time value in milliseconds, [None] for NaN. *)
Definition getTime (t : Date) : option Z :=
  match t with
  | InvalidDate => None
  | Midnight d => Some (MakeDay d * msPerDay)
  end.

Definition isNaN (t : Date) : bool :=
  match getTime t with None => true | Some _ => false end.

(** [a <= b] on two [Date]s: on their time values, false when one is NaN. *)
Definition Date_le (a b : Date) : bool :=
  match getTime a, getTime b with
  | Some x, Some y => x <=? y
  | _, _ => false
  end.

(** Decimal digits. *)
Definition digit (n : Z) : ascii := ascii_of_N (Z.to_N (48 + n mod 10)).

Definition pad2 (n : Z) : string :=
  String (digit (n / 10)) (String (digit n) "").

Definition pad4 (n : Z) : string :=
  String (digit (n / 1000)) (String (digit (n / 100)) (pad2 n)).

Definition pad6 (n : Z) : string :=
  String (digit (n / 100000)) (String (digit (n / 10000)) (pad4 n)).

(** The decimal digits of [n], most significant first, before [acc]. *)
Fixpoint decimal (fuel : nat) (n : Z) (acc : string) : string :=
  match fuel with
  | O => acc
  | S fuel' =>
      if n <? 10 then String (digit n) acc
      else decimal fuel' (n / 10) (String (digit n) acc)
  end.

(** A number written with all its digits and at least [w] of them, for
    [w] 4 or 6. *)
Definition at_least4 (n : Z) : string :=
  if n <? 10000 then pad4 n else decimal (S (Z.to_nat (Z.log2 n))) n "".

Definition at_least6 (n : Z) : string :=
  if n <? 1000000 then pad6 n else decimal (S (Z.to_nat (Z.log2 n))) n "".

(** The value of a date field holding [d]: [yyyy-mm-dd], the year with
    four digits or more. *)
Definition date_string (d : date) : string :=
  at_least4 (year d) +:+ "-" +:+ pad2 (month d) +:+ "-" +:+ pad2 (day d).

Definition value (i : option date) : string :=
  match i with None => "" | Some d => date_string d end.

(** The year of [toISOString()]: four digits from 0 to 9999, else a sign
    and six digits. *)
Definition iso_year (y : Z) : string :=
  if (0 <=? y) && (y <=? 9999) then pad4 y
  else (if y <? 0 then "-" else "+") +:+ at_least6 (Z.abs y).

(** [toISOString()] of midnight UTC of [d]: [yyyy-mm-ddT00:00:00.000Z]. *)
Definition toISOString (d : date) : string :=
  iso_year (year d) +:+ "-" +:+ pad2 (month d) +:+ "-" +:+ pad2 (day d)
  +:+ "T00:00:00.000Z".

(** A date written day first, [dd/mm/yyyy]: a text of fixed length that the
    server stores and compares like any other, and that the page never
    writes.  It serves to test the text order on a format other than the
    page's two. *)
Definition day_month_year (d : date) : string :=
  pad2 (day d) +:+ "/" +:+ pad2 (month d) +:+ "/" +:+ at_least4 (year d).

(** [toISOString()] of a [Date]; a [RangeError] ([None]) on [Invalid Date]. *)
Definition Date_toISOString (t : Date) : option string :=
  match t with InvalidDate => None | Midnight d => Some (toISOString d) end.

(** ** The rooms page of [script.js] *)

(** A cell [td#avail-<id>] of the table. *)
Record cell := mkcell { textContent : string; className : string }.

#[global] Instance cell_eq_dec : EqDecision cell.
Proof. solve_decision. Defined.

(** The texts the page shows. *)
Definition invalid_dates : cell := mkcell "Fechas no válidas" "availability unavailable".
Definition error_cell : cell := mkcell "Error" "availability unavailable".
Definition available_cell : cell := mkcell "Disponible" "availability available".
Definition unavailable_cell : cell := mkcell "No disponible" "availability unavailable".

Definition select_dates : string :=
  "Por favor seleccione una fecha de entrada y salida válida antes de reservar.".

(** The fields of the reservation form; [formRoomId] holds a room id or
    nothing ([parseInt] then gives NaN, which JSON writes as [null]). *)
Record form := mkform
  { formRoomId : option Z; formCheckIn : string; formCheckOut : string;
    formName : string; formEmail : string; formPhone : string }.

(** The state of the page: the two date fields, the availability cells by
    room id, the modal with its form, and the alerts shown so far. *)
Record page := mkpage
  { checkInInput : option date;
    checkOutInput : option date;
    cells : gmap Z cell;
    modalShown : bool;
    modalRoomName : string;
    modalRoomType : string;
    modalRoomPrice : string;
    reservationForm : form;
    alerts : list string }.

Definition set_cells (c : gmap Z cell) (p : page) : page :=
  mkpage (checkInInput p) (checkOutInput p) c (modalShown p) (modalRoomName p)
    (modalRoomType p) (modalRoomPrice p) (reservationForm p) (alerts p).

Definition alert (msg : string) (p : page) : page :=
  mkpage (checkInInput p) (checkOutInput p) (cells p) (modalShown p)
    (modalRoomName p) (modalRoomType p) (modalRoomPrice p) (reservationForm p)
    (alerts p ++ [msg]).

(** The body of [rooms.forEach(room => ...)] in [updateAvailability]: the
    text and class for the room's cell are computed ([None]: that throws),
    then written to the cell; a room without a cell is a [TypeError].  The
    cells written before an exception stay written; [false] reports the
    exception. *)
Fixpoint forEach_paint (f : Room.t → option cell) (rs : list Room.t) (c : gmap Z cell)
  : gmap Z cell * bool :=
  match rs with
  | [] => (c, true)
  | room :: rs' =>
      match f room, c !! Room.id room with
      | Some x, Some _ => forEach_paint f rs' (<[Room.id room := x]> c)
      | _, _ => (c, false)
      end
  end.

(** What one handler did: the page after it, the requests it sent, and
    whether it ended normally ([false]: an uncaught exception). *)
Record outcome := mkout { after : page; sent : list request; normal : bool }.

Definition painted (x : cell) (p : page) (reqs : list request) : outcome :=
  let '(c, ok) := forEach_paint (λ _, Some x) rooms (cells p) in
  mkout (set_cells c p) reqs ok.

(** [response.json()]: [None] when the body is not JSON. *)
Definition response_json (res : response) : option json :=
  match body res with Json j => Some j | Html _ => None end.

(** [response.ok]: the status is in the range 200 to 299. *)
Definition response_ok (res : response) : bool :=
  (200 <=? status res) && (status res <=? 299).

(** [reservations.some(res => res.roomId === room.id)] on the parsed body:
    [None] when the value is not an array ([some] is not a function); the
    rooms of [/api/rooms] have no [roomId]. *)
Definition conflict (reservations : json) (room : Room.t) : option bool :=
  match reservations with
  | JRows rows =>
      Some (bool_decide (Exists (λ res, Reservation.roomId res = Room.id room) rows))
  | JRooms _ => Some false
  | JId _ | JError _ => None
  end.

Definition availability_cell (reservations : json) (room : Room.t) : option cell :=
  available ← negb <$> conflict reservations room;
  Some (if available : bool then available_cell else unavailable_cell).

(** JavaScript [trim()] on the UTF-8 bytes of a string: the white space and
    line terminators of ECMAScript are TAB, LF, VT, FF, CR, SP (one byte),
    U+00A0 (two bytes), and U+1680, U+2000 to U+200A, U+2028, U+2029,
    U+202F, U+205F, U+3000, U+FEFF (three bytes). *)
Definition ws1 (c : ascii) : bool :=
  ((9 <=? code c) && (code c <=? 13)) || (code c =? 32).

Definition ws2 (c1 c2 : ascii) : bool :=
  (code c1 =? 194) && (code c2 =? 160).

Definition ws3 (c1 c2 c3 : ascii) : bool :=
  ((code c1 =? 225) && (code c2 =? 154) && (code c3 =? 128))
  || ((code c1 =? 226) && (code c2 =? 128)
      && (((128 <=? code c3) && (code c3 <=? 138))
          || (code c3 =? 168) || (code c3 =? 169) || (code c3 =? 175)))
  || ((code c1 =? 226) && (code c2 =? 129) && (code c3 =? 159))
  || ((code c1 =? 227) && (code c2 =? 128) && (code c3 =? 128))
  || ((code c1 =? 239) && (code c2 =? 187) && (code c3 =? 191)).

(** Drops leading white space; [w2] and [w3] read the bytes of a character
    in the order they are met (reversed when trimming the end). *)
Fixpoint trim_with (w2 : ascii → ascii → bool) (w3 : ascii → ascii → ascii → bool)
    (s : string) : string :=
  match s with
  | EmptyString => s
  | String c1 s1 =>
      if ws1 c1 then trim_with w2 w3 s1
      else match s1 with
           | EmptyString => s
           | String c2 s2 =>
               if w2 c1 c2 then trim_with w2 w3 s2
               else match s2 with
                    | EmptyString => s
                    | String c3 s3 =>
                        if w3 c1 c2 c3 then trim_with w2 w3 s3 else s
                    end
           end
  end.

Definition trimStart (s : string) : string := trim_with ws2 ws3 s.

Definition trimEnd (s : string) : string :=
  String.rev (trim_with (λ c2 c1, ws2 c1 c2) (λ c3 c2 c1, ws3 c1 c2 c3) (String.rev s)).

Definition trim (s : string) : string := trimEnd (trimStart s).

Section Page.
(** The network as the page sees it: [fetch] over the state [S] of
    whatever answers; [None] is a rejected promise (no response). *)
Context {S : Type} (fetch : request → S → option response * S).

(** [Intl.NumberFormat('es-CO', ...).format], kept abstract. *)
Context (formatCOP : Z → string).

(** [reservationForm.reset()]: the form as its markup initialises it. *)
Context (reset : form → form).

(** [updateAvailability()].  The URL of its request is the origin
    followed by [?checkIn=...&checkOut=...], so the path is [/]. *)
Definition updateAvailability (p : page) (s : S) : outcome * S :=
  let checkInDate := new_Date (checkInInput p) in
  let checkOutDate := new_Date (checkOutInput p) in
  if isNaN checkInDate || isNaN checkOutDate then (mkout p [] true, s)
  else if Date_le checkOutDate checkInDate then (painted invalid_dates p [], s)
  else
    match Date_toISOString checkInDate, Date_toISOString checkOutDate with
    | Some checkIn, Some checkOut =>
        let req := GET "/" (Query.mk (Some checkIn) (Some checkOut)) in
        let '(response, s') := fetch req s in
        let tried :=
          match response ≫= response_json with
          | None => (cells p, false)
          | Some reservations =>
              forEach_paint (availability_cell reservations) rooms (cells p)
          end in
        if tried.2 then (mkout (set_cells tried.1 p) [req] true, s')
        else (painted error_cell (set_cells tried.1 p) [req], s')
    | _, _ => (painted error_cell p [], s)
    end.

(** [openReservationModal(roomId)] *)
Definition openReservationModal (roomId : Z) (p : page) : outcome :=
  let checkInDate := new_Date (checkInInput p) in
  let checkOutDate := new_Date (checkOutInput p) in
  if bool_decide (value (checkInInput p) = "")
     || bool_decide (value (checkOutInput p) = "")
     || Date_le checkOutDate checkInDate
  then mkout (alert select_dates p) [] true
  else
    match find (λ r, bool_decide (Room.id r = roomId)) rooms with
    | None => mkout p [] false
    | Some room =>
        let f := reservationForm p in
        mkout (mkpage (checkInInput p) (checkOutInput p) (cells p) true
                 (Room.name room) (Room.type room) (formatCOP (Room.price room))
                 (mkform (Some (Room.id room)) (value (checkInInput p))
                    (value (checkOutInput p)) (formName f) (formEmail f) (formPhone f))
                 (alerts p)) [] true
    end.

(** [closeModal()] *)
Definition closeModal (p : page) : page :=
  mkpage (checkInInput p) (checkOutInput p) (cells p) false
    (modalRoomName p) (modalRoomType p) (modalRoomPrice p)
    (reset (reservationForm p)) (alerts p).

(** The [submit] handler of the reservation form.  After a success the
    refresh is started and not awaited: an exception in it is not the
    handler's. *)
Definition submit (p : page) (s : S) : outcome * S :=
  let f := reservationForm p in
  let roomId := formRoomId f in
  let name := trim (formName f) in
  let email := trim (formEmail f) in
  let phone := trim (formPhone f) in
  let checkInDate := formCheckIn f in
  let checkOutDate := formCheckOut f in
  if bool_decide (name = "") || bool_decide (email = "") || bool_decide (phone = "")
  then (mkout (alert "Por favor complete todos los campos del formulario." p) [] true, s)
  else
    let req := POST "/api/reservations"
                 (Body.mk roomId (Some name) (Some email) (Some phone)
                    (Some checkInDate) (Some checkOutDate)) in
    let '(response, s') := fetch req s in
    let sorry := "Lo sentimos, ocurrió un error al registrar la reserva. Por favor inténtelo de nuevo más tarde." in
    match response with
    | Some res =>
        if response_ok res then
          match response_json res with
          | Some _ =>
              let p1 := closeModal (alert "¡Gracias! Su solicitud de reserva ha sido registrada. Nos pondremos en contacto a la brevedad." p) in
              let '(o, s'') := updateAvailability p1 s' in
              (mkout (after o) (req :: sent o) true, s'')
          | None => (mkout (alert sorry p) [req] true, s')
          end
        else (mkout (alert sorry p) [req] true, s')
    | None => (mkout (alert sorry p) [req] true, s')
    end.
End Page.

(** The page talking to the server of [server.js]: the state is the number
    of requests made so far and the server; [e n] is what the world decides
    for request number [n]. *)
Definition fetch_server (e : nat → world) (req : request) (s : nat * server)
  : option response * (nat * server) :=
  let '(res, s') := app (e s.1) req s.2 in (Some res, (S s.1, s')).

(** [renderRooms()]: the table body is emptied, a row is built for each
    room with an empty availability cell, and the availability refreshed. *)
Definition renderRooms {S : Type} (fetch : request → S → option response * S)
    (p : page) (s : S) : outcome * S :=
  let c := foldl (λ c room, <[Room.id room := mkcell "" "availability"]> c) ∅ rooms in
  updateAvailability fetch (set_cells c p) s.

(** The page as [initRoomsPage] finds it, with the two date fields set: no
    row in the table, the modal closed, the form empty, no alert. *)
Definition loaded (checkIn checkOut : option date) : page :=
  mkpage checkIn checkOut ∅ false "" "" "" (mkform None "" "" "" "" "") [].

(** Every room has its availability cell. *)
Definition rendered (p : page) : Prop :=
  ∀ room, room ∈ rooms → is_Some (cells p !! Room.id room).

(** ** Vocabulary of the statements *)

(** A body field counts as missing when the handler's test [!field] holds:
    the key is absent, or holds the empty string (zero for [roomId]). *)
Definition missing_str (x : option string) : Prop := x = None ∨ x = Some "".
Definition missing_num (x : option Z) : Prop := x = None ∨ x = Some 0.

Definition incomplete (b : Body.t) : Prop :=
  missing_num (Body.roomId b) ∨ missing_str (Body.name b)
  ∨ missing_str (Body.email b) ∨ missing_str (Body.phone b)
  ∨ missing_str (Body.checkIn b) ∨ missing_str (Body.checkOut b).

(** The six keys of the body are there. *)
Definition present (b : Body.t) : Prop :=
  is_Some (Body.roomId b) ∧ is_Some (Body.name b) ∧ is_Some (Body.email b)
  ∧ is_Some (Body.phone b) ∧ is_Some (Body.checkIn b) ∧ is_Some (Body.checkOut b).

(** The body whose six fields hold the values [a]. *)
Definition body_of (a : insert_args) : Body.t :=
  Body.mk (Some (a_roomId a)) (Some (a_name a)) (Some (a_email a))
    (Some (a_phone a)) (Some (a_checkIn a)) (Some (a_checkOut a)).

(** All six values are truthy. *)
Definition filled (a : insert_args) : Prop :=
  a_roomId a ≠ 0 ∧ a_name a ≠ "" ∧ a_email a ≠ "" ∧ a_phone a ≠ ""
  ∧ a_checkIn a ≠ "" ∧ a_checkOut a ≠ "".


(** The keys the responses of a run announce ([{ id: this.lastID }]). *)
Definition announced (res : response) : option Z :=
  match body res with Json (JId i) => Some i | _ => None end.

Definition ids (d : database) : list Z := Reservation.id <$> reservations d.


(** Comparing first on [x], then on what follows. *)
Definition then_compare (x y : comparison) : comparison :=
  match x with Eq => y | _ => x end.

(** The order of the calendar on dates: year, then month, then day. *)
Definition date_compare (d1 d2 : date) : comparison :=
  then_compare (year d1 ?= year d2)
    (then_compare (month d1 ?= month d2) (day d1 ?= day d2)).

(** The chronological half-open overlap of a stay [ci, co) with a
    requested window [a, b), on the time values of the dates. *)
Definition overlaps_in_time (ci co a b : date) : Prop :=
  ¬ (MakeDay co * msPerDay ≤ MakeDay a * msPerDay
     ∨ MakeDay b * msPerDay ≤ MakeDay ci * msPerDay).

(** The request of a submission whose three text fields are not blank: the
    id and the two dates as the form holds them, the texts trimmed. *)
Definition submission (f : form) : request :=
  POST "/api/reservations"
    (Body.mk (formRoomId f) (Some (trim (formName f))) (Some (trim (formEmail f)))
       (Some (trim (formPhone f))) (Some (formCheckIn f)) (Some (formCheckOut f))).


(** A text made of one-byte white space only (or empty). *)
Fixpoint blank (s : string) : bool :=
  match s with
  | EmptyString => true
  | String c s' => ws1 c && blank s'
  end.

(** The visitor types into the three text fields of the form. *)
Definition type_in (name email phone : string) (p : page) : page :=
  mkpage (checkInInput p) (checkOutInput p) (cells p) (modalShown p)
    (modalRoomName p) (modalRoomType p) (modalRoomPrice p)
    (mkform (formRoomId (reservationForm p)) (formCheckIn (reservationForm p))
       (formCheckOut (reservationForm p)) name email phone)
    (alerts p).

(** The alerts of the handlers. *)
Definition complete_fields : string :=
  "Por favor complete todos los campos del formulario.".
Definition thanks : string :=
  "¡Gracias! Su solicitud de reserva ha sido registrada. Nos pondremos en contacto a la brevedad.".
Definition sorry : string :=
  "Lo sentimos, ocurrió un error al registrar la reserva. Por favor inténtelo de nuevo más tarde.".

(** ** The contact form of [script.js] *)

(** [encodeURIComponent] on the UTF-8 bytes of a string: letters, digits
    and [- _ . ! ~ * ' ( )] are kept, every other byte is written [%XX]
    with upper-case hexadecimal digits. *)
Definition unreserved (c : ascii) : bool :=
  ((65 <=? code c) && (code c <=? 90))
  || ((97 <=? code c) && (code c <=? 122))
  || ((48 <=? code c) && (code c <=? 57))
  || bool_decide (code c ∈ [45; 95; 46; 33; 126; 42; 39; 40; 41]).

Definition hex (n : Z) : ascii :=
  ascii_of_N (Z.to_N (if n <? 10 then 48 + n else 55 + n)).

Fixpoint encodeURIComponent (s : string) : string :=
  match s with
  | EmptyString => EmptyString
  | String c s' =>
      if unreserved c then String c (encodeURIComponent s')
      else String "%" (String (hex (code c / 16)) (String (hex (code c mod 16))
             (encodeURIComponent s')))
  end.

(** The four fields of the contact form. *)
Record contact := mkcontact
  { contactName : string; contactEmail : string; contactPhone : string;
    contactMessage : string }.

(** What the [submit] handler of the contact form did: the link the
    window was sent to, if any, the alert shown, and the form after it. *)
Record contact_outcome := mkcout
  { href : option string; shown : string; contact_after : contact }.

Definition mailto_body (name email phone message : string) : string :=
  "Nombre: " +:+ name +:+ "%0ACorreo: " +:+ email +:+ "%0ATeléfono: " +:+ phone
  +:+ "%0A%0AMensaje:%0A" +:+ message.

(** The [submit] handler that [initContactForm] attaches; [reset] is
    [form.reset()]. *)
Definition contact_submit (reset : contact → contact) (f : contact) : contact_outcome :=
  let name := trim (contactName f) in
  let email := trim (contactEmail f) in
  let phone := trim (contactPhone f) in
  let message := trim (contactMessage f) in
  if bool_decide (name = "") || bool_decide (email = "") || bool_decide (message = "")
  then mkcout None "Por favor complete su nombre, correo y mensaje." f
  else
    let subject := encodeURIComponent "Consulta desde el sitio web" in
    let body := encodeURIComponent (mailto_body name email phone message) in
    let mailtoLink :=
      "mailto:casarubiataganga@gmail.com?subject=" +:+ subject +:+ "&body=" +:+ body in
    mkcout (Some mailtoLink)
      "Gracias por contactarnos. Se abrirá su cliente de correo para enviar el mensaje."
      (reset f).

(** Occurrences of a byte in a text. *)
Fixpoint count_byte (c : ascii) (s : string) : nat :=
  match s with
  | EmptyString => 0
  | String c' s' => (if decide (c' = c) then 1 else 0) + count_byte c s'
  end.

(** A byte that [encodeURIComponent] never lets through: neither kept as
    it is nor the percent sign. *)
Definition escaped (c : ascii) : Prop := unreserved c = false ∧ c ≠ "%"%char.

(** The alerts of the contact form. *)
Definition complete_contact : string :=
  "Por favor complete su nombre, correo y mensaje.".
Definition contact_thanks : string :=
  "Gracias por contactarnos. Se abrirá su cliente de correo para enviar el mensaje.".

(** * Properties of the server *)

(** ** Numbers *)

Lemma to_number_small (z : Z) : Z.abs z ≤ 2 ^ 53 → to_number z = z.
Proof.
  intros Hz. unfold to_number.
  destruct (Z.leb_spec (Z.abs z) (2 ^ 53)); [done|lia].
Qed.

Lemma js_row_small (r : Reservation.t) :
  Z.abs (Reservation.id r) ≤ 2 ^ 53 → Z.abs (Reservation.roomId r) ≤ 2 ^ 53 →
  js_row r = r.
Proof.
  intros H1 H2. unfold js_row. rewrite !to_number_small by done. by destruct r.
Qed.

Lemma js_rows_small (rows : list Reservation.t) :
  Forall (λ r, Z.abs (Reservation.id r) ≤ 2 ^ 53
               ∧ Z.abs (Reservation.roomId r) ≤ 2 ^ 53) rows →
  js_row <$> rows = rows.
Proof.
  induction 1 as [|r rows [H1 H2] _ IH]; [done|].
  rewrite fmap_cons, IH. by rewrite js_row_small.
Qed.

(** ** The text order *)

Lemma str_le_empty (s : string) : ("" ≤ s)%string.
Proof. by destruct s. Qed.

Lemma str_lt_nonempty (s t : string) : (s < t)%string → t ≠ "".
Proof. intros [_ Hn] ->. apply Hn, str_le_empty. Qed.

Lemma str_lt_le_trans (s t u : string) :
  (s < t)%string → (t ≤ u)%string → (s < u)%string.
Proof.
  intros [Hst Hts] Htu. split; [by etrans|].
  intros Hus. apply Hts. by etrans.
Qed.

Lemma str_le_lt_trans (s t u : string) :
  (s ≤ t)%string → (t < u)%string → (s < u)%string.
Proof.
  intros Hst [Htu Hut]. split; [by etrans|].
  intros Hus. apply Hut. by etrans.
Qed.

Lemma str_lt_not_ge (s t : string) : (s < t)%string ↔ ¬ (s ≥ t)%string.
Proof.
  unfold str_ge. split; [by intros [_ ?]|].
  intros Hn. split; [|done]. by destruct (total String.le s t).
Qed.

Lemma truthy_str_Some (s : string) : s ≠ "" → truthy_str (Some s) = Some s.
Proof. intros Hs. unfold truthy_str. simpl. by case_decide. Qed.

Lemma truthy_num_Some (n : Z) : n ≠ 0 → truthy_num (Some n) = Some n.
Proof. intros Hn. unfold truthy_num. simpl. by case_decide. Qed.

Lemma truthy_str_inv (x : option string) (s : string) :
  truthy_str x = Some s → x = Some s ∧ s ≠ "".
Proof.
  destruct x as [t|]; [|done]. unfold truthy_str. simpl.
  case_decide; [done|]. by intros [= ->].
Qed.

Lemma truthy_num_inv (x : option Z) (n : Z) :
  truthy_num x = Some n → x = Some n ∧ n ≠ 0.
Proof.
  destruct x as [m|]; [|done]. unfold truthy_num. simpl.
  case_decide; [done|]. by intros [= ->].
Qed.

Lemma filter_NoWhere (rows : list Reservation.t) :
  filter (matches NoWhere) rows = rows.
Proof.
  induction rows as [|r rows IH]; [done|].
  rewrite filter_cons_True; [|done]. by rewrite IH.
Qed.

(** ** The overlap query *)

Lemma get_reservations_range (e : world) (d : database) (a b : string) :
  a ≠ "" → b ≠ "" →
  get_reservations e (Query.mk (Some a) (Some b)) d =
  match db_all e (NotEndedOrNotStarted a b) d with
  | None => res_status_json 500 (JError "Database error")
  | Some rows => res_json (JRows rows)
  end.
Proof.
  intros Ha Hb. unfold get_reservations.
  cbn [Query.checkIn Query.checkOut]. by rewrite !truthy_str_Some.
Qed.

(** C1. With both parameters supplied and [a < b], and the engine reporting
    no error, [GET /api/reservations] answers 200 with exactly the stored
    rows that satisfy [NOT (checkOut <= a OR checkIn >= b)], in table
    order, each as JavaScript reads it (unchanged when its two integers are
    at most [2^53]); a row whose [checkOut] is [a], or whose [checkIn] is
    [b], is not among them. *)
Theorem get_reservations_overlap (e : world) (d : database) (a b : string) :
  err e = false → a ≠ "" → (a < b)%string →
  let rows :=
    filter (λ r, ¬ ((Reservation.checkOut r ≤ a)%string
                    ∨ (Reservation.checkIn r ≥ b)%string)) (reservations d) in
  get_reservations e (Query.mk (Some a) (Some b)) d
  = mkres 200 (Json (JRows (js_row <$> rows)))
  ∧ (∀ r, r ∈ rows ↔
          r ∈ reservations d
          ∧ ¬ ((Reservation.checkOut r ≤ a)%string ∨ (Reservation.checkIn r ≥ b)%string))
  ∧ (∀ r, Reservation.checkOut r = a → r ∉ rows)
  ∧ (∀ r, Reservation.checkIn r = b → r ∉ rows)
  ∧ (Forall (λ r, Z.abs (Reservation.id r) ≤ 2 ^ 53
                  ∧ Z.abs (Reservation.roomId r) ≤ 2 ^ 53) rows →
     get_reservations e (Query.mk (Some a) (Some b)) d = mkres 200 (Json (JRows rows))).
Proof.
  intros He Ha Hab rows.
  assert (get_reservations e (Query.mk (Some a) (Some b)) d
          = mkres 200 (Json (JRows (js_row <$> rows)))) as Hget.
  { rewrite get_reservations_range; [|done|by eapply str_lt_nonempty].
    unfold db_all. by rewrite He. }
  split; [done|]. split; [|split; [|split]].
  - intros r. unfold rows. rewrite list_elem_of_filter. tauto.
  - intros r Hr. unfold rows. rewrite list_elem_of_filter.
    intros [Hn _]. apply Hn. left. by rewrite Hr.
  - intros r Hr. unfold rows. rewrite list_elem_of_filter.
    intros [Hn _]. apply Hn. right. unfold str_ge. by rewrite Hr.
  - intros Hsmall. by rewrite Hget, js_rows_small.
Qed.

Lemma get_reservations_overlap_witness :
  get_reservations (mkworld false "2024-05-20 10:00:00")
    (Query.mk (Some "2024-06-03") (Some "2024-06-05"))
    (mkdb [ Reservation.mk 1 1 "Ana" "ana@example.org" "300" "2024-06-01" "2024-06-03" "t";
            Reservation.mk 2 1 "Luz" "luz@example.org" "301" "2024-06-04" "2024-06-06" "t";
            Reservation.mk 3 2 "Eva" "eva@example.org" "302" "2024-06-05" "2024-06-07" "t" ] 3)
  = mkres 200 (Json (JRows
      [ Reservation.mk 2 1 "Luz" "luz@example.org" "301" "2024-06-04" "2024-06-06" "t" ])).
Proof.
  refine (proj1 (get_reservations_overlap _ _ "2024-06-03" "2024-06-05" _ _ _));
    [reflexivity | discriminate | by vm_compute].
Defined.

(** C10. With one of the two parameters absent or empty no [WHERE] clause is
    built: the answer is that of the request without parameters, all the
    stored rows when the engine reports no error, each as JavaScript reads
    it (unchanged when its two integers are at most [2^53]). *)
Theorem get_reservations_one_param (e : world) (d : database) (q : Query.t) :
  Query.checkIn q = None ∨ Query.checkOut q = None
  ∨ Query.checkIn q = Some "" ∨ Query.checkOut q = Some "" →
  get_reservations e q d = get_reservations e (Query.mk None None) d
  ∧ (err e = false →
     get_reservations e q d = mkres 200 (Json (JRows (js_row <$> reservations d)))
     ∧ (Forall (λ r, Z.abs (Reservation.id r) ≤ 2 ^ 53
                     ∧ Z.abs (Reservation.roomId r) ≤ 2 ^ 53) (reservations d) →
        get_reservations e q d = mkres 200 (Json (JRows (reservations d))))).
Proof.
  intros Hq.
  assert (get_reservations e q d = get_reservations e (Query.mk None None) d) as Heq.
  { unfold get_reservations. simpl.
    destruct Hq as [-> | [-> | [-> | ->]]]; simpl;
      by repeat (case_match; simplify_eq/=). }
  split; [done|]. intros He. rewrite Heq.
  unfold get_reservations, db_all. simpl. rewrite He.
  rewrite filter_NoWhere. split; [done|].
  intros Hsmall. by rewrite js_rows_small.
Qed.

Lemma get_reservations_one_param_witness :
  let d := mkdb [ Reservation.mk 1 1 "Ana" "ana@example.org" "300" "2024-06-01" "2024-06-03" "t" ] 1 in
  get_reservations (mkworld false "t") (Query.mk (Some "2024-07-01") None) d
  = mkres 200 (Json (JRows (reservations d))).
Proof.
  intros d.
  refine (proj1 (proj2 (get_reservations_one_param _ d (Query.mk (Some "2024-07-01") None) _) _));
    [by right; left | reflexivity].
Defined.

(** ** Creating a reservation *)

Lemma truthy_str_missing (x : option string) :
  missing_str x ↔ truthy_str x = None.
Proof.
  unfold missing_str, truthy_str. destruct x as [s|]; simpl.
  - case_decide; naive_solver.
  - naive_solver.
Qed.

Lemma truthy_num_missing (x : option Z) :
  missing_num x ↔ truthy_num x = None.
Proof.
  unfold missing_num, truthy_num. destruct x as [n|]; simpl.
  - case_decide; naive_solver.
  - naive_solver.
Qed.

Lemma required_incomplete (b : Body.t) : incomplete b ↔ required b = None.
Proof.
  unfold incomplete, required.
  rewrite truthy_num_missing, !truthy_str_missing.
  destruct (truthy_num (Body.roomId b)), (truthy_str (Body.name b)),
    (truthy_str (Body.email b)), (truthy_str (Body.phone b)),
    (truthy_str (Body.checkIn b)), (truthy_str (Body.checkOut b));
    simpl; naive_solver.
Qed.

Lemma required_body_of (a : insert_args) :
  filled a → required (body_of a) = Some a.
Proof.
  intros (? & ? & ? & ? & ? & ?). unfold required, body_of.
  cbn [Body.roomId Body.name Body.email Body.phone Body.checkIn Body.checkOut].
  rewrite truthy_num_Some by done. rewrite !truthy_str_Some by done.
  by destruct a.
Qed.

Lemma required_inv (b : Body.t) (a : insert_args) :
  required b = Some a → b = body_of a ∧ filled a.
Proof.
  unfold required. intros H.
  destruct (truthy_num (Body.roomId b)) as [n|] eqn:H1; [|done].
  destruct (truthy_str (Body.name b)) as [s1|] eqn:H2; [|done].
  destruct (truthy_str (Body.email b)) as [s2|] eqn:H3; [|done].
  destruct (truthy_str (Body.phone b)) as [s3|] eqn:H4; [|done].
  destruct (truthy_str (Body.checkIn b)) as [s4|] eqn:H5; [|done].
  destruct (truthy_str (Body.checkOut b)) as [s5|] eqn:H6; [|done].
  simpl in H. injection H as <-.
  apply truthy_num_inv in H1 as [? ?].
  apply truthy_str_inv in H2 as [? ?], H3 as [? ?], H4 as [? ?],
    H5 as [? ?], H6 as [? ?].
  split; [|done]. destruct b; simpl in *. unfold body_of; simpl. congruence.
Qed.

Lemma stmt_run_ok (e : world) (a : insert_args) (d : database) :
  err e = false → last_rowid d < MAX_ROWID →
  stmt_run e a d =
  Some (to_number (last_rowid d + 1),
        mkdb (reservations d ++ [row_of (last_rowid d + 1) a (now e)])
          (last_rowid d + 1)).
Proof.
  intros He Hlt. unfold stmt_run. rewrite He.
  destruct (Z.leb_spec MAX_ROWID (last_rowid d)); [lia|done].
Qed.

Lemma stmt_run_fail (e : world) (a : insert_args) (d : database) :
  err e = true ∨ MAX_ROWID ≤ last_rowid d → stmt_run e a d = None.
Proof.
  intros H. unfold stmt_run. destruct (err e); [done|].
  destruct H as [|H]; [done|].
  destruct (Z.leb_spec MAX_ROWID (last_rowid d)); [done|lia].
Qed.

Lemma stmt_run_inv (e : world) (a : insert_args) (d d' : database) (n : Z) :
  stmt_run e a d = Some (n, d') →
  err e = false ∧ last_rowid d < MAX_ROWID ∧ n = to_number (last_rowid d + 1)
  ∧ d' = mkdb (reservations d ++ [row_of (last_rowid d + 1) a (now e)])
           (last_rowid d + 1).
Proof.
  unfold stmt_run. destruct (err e); [done|].
  destruct (Z.leb_spec MAX_ROWID (last_rowid d)); [done|].
  intros [= <- <-]. by repeat split.
Qed.

Lemma max_rowid_ge (rows : list Reservation.t) (r : Reservation.t) :
  r ∈ rows → Reservation.id r ≤ max_rowid rows.
Proof.
  induction 1 as [r rows|r r' rows _ IH]; simpl; lia.
Qed.

Lemma max_rowid_nonneg (rows : list Reservation.t) : 0 ≤ max_rowid rows.
Proof. induction rows as [|r rows IH]; simpl; lia. Qed.

Lemma max_rowid_snoc (rows : list Reservation.t) (r : Reservation.t) :
  max_rowid (rows ++ [r]) = Z.max (max_rowid rows) (Reservation.id r).
Proof.
  induction rows as [|r' rows IH]; simpl; [lia|]. rewrite IH. lia.
Qed.

Lemma last_rowid_ge (d : database) (r : Reservation.t) :
  r ∈ reservations d → Reservation.id r ≤ last_rowid d.
Proof. intros Hr%max_rowid_ge. unfold last_rowid. lia. Qed.

Lemma last_rowid_nonneg (d : database) : 0 ≤ last_rowid d.
Proof. unfold last_rowid. pose proof (max_rowid_nonneg (reservations d)). lia. Qed.

Lemma last_rowid_insert (d : database) (a : insert_args) (t : string) :
  let i := last_rowid d + 1 in
  last_rowid (mkdb (reservations d ++ [row_of i a t]) i) = i.
Proof.
  intros i. unfold last_rowid at 1. simpl. rewrite max_rowid_snoc. simpl.
  unfold i, last_rowid. lia.
Qed.

(** A successful insert, in full: the answer and the store after it. *)
Lemma post_reservations_ok (e : world) (a : insert_args) (d : database) :
  filled a → err e = false → last_rowid d < MAX_ROWID →
  post_reservations e (body_of a) d
  = (mkres 200 (Json (JId (to_number (last_rowid d + 1)))),
     mkdb (reservations d
           ++ [Reservation.mk (last_rowid d + 1) (a_roomId a) (a_name a) (a_email a)
                 (a_phone a) (a_checkIn a) (a_checkOut a) (now e)])
       (last_rowid d + 1)).
Proof.
  intros Ha He Hlt. unfold post_reservations.
  rewrite required_body_of by done. by rewrite stmt_run_ok.
Qed.

(** The claim as worded fails twice.  A body with its six keys present and
    [roomId] 0 is answered 400 although nothing is missing and the engine
    is ready; and from a table whose largest key is [2^53] the row is
    written under [2^53 + 1] while the answer announces [2^53]. *)
Lemma post_reservations_outcome_counterexample :
  let e := mkworld false "2024-05-20 10:00:00" in
  let b0 := Body.mk (Some 0) (Some "Ana") (Some "ana@example.org") (Some "300")
              (Some "2024-06-01") (Some "2024-06-03") in
  let b1 := Body.mk (Some 1) (Some "Ana") (Some "ana@example.org") (Some "300")
              (Some "2024-06-01") (Some "2024-06-03") in
  (present b0 ∧ err e = false ∧ last_rowid (mkdb [] 0) < MAX_ROWID
   ∧ post_reservations e b0 (mkdb [] 0)
     = (mkres 400 (Json (JError "Datos incompletos")), mkdb [] 0))
  ∧ (present b1
     ∧ post_reservations e b1 (mkdb [] (2 ^ 53))
       = (mkres 200 (Json (JId (2 ^ 53))),
          mkdb [ Reservation.mk (2 ^ 53 + 1) 1 "Ana" "ana@example.org" "300"
                   "2024-06-01" "2024-06-03" "2024-05-20 10:00:00" ] (2 ^ 53 + 1))
     ∧ 2 ^ 53 ≠ 2 ^ 53 + 1).
Proof.
  intros e b0 b1.
  assert (present b0 ∧ present b1) as [H0 H1].
  { split; repeat split; by eexists. }
  repeat split; try done; by vm_compute.
Qed.

(** C5, amended. [POST /api/reservations] answers 400 with an error payload
    and leaves the store as it was when one of the six fields is missing
    or falsy (absent, the empty string, 0 for [roomId]); with all six
    truthy it answers 200 when the insert succeeds, appending the row
    under the next key and announcing that key as a JavaScript number (the
    key itself up to [2^53]), and 500 with an error payload, the store
    unchanged, when the engine reports a failure. *)
Theorem post_reservations_outcome (e : world) (d : database) :
  (∀ b, incomplete b →
        post_reservations e b d = (mkres 400 (Json (JError "Datos incompletos")), d))
  ∧ (∀ a, filled a → err e = false → last_rowid d < MAX_ROWID →
          let i := last_rowid d + 1 in
          post_reservations e (body_of a) d =
          (mkres 200 (Json (JId (to_number i))),
           mkdb (reservations d
                 ++ [Reservation.mk i (a_roomId a) (a_name a) (a_email a) (a_phone a)
                       (a_checkIn a) (a_checkOut a) (now e)]) i)
          ∧ (∀ r, r ∈ reservations d → Reservation.id r < i)
          ∧ (i ≤ 2 ^ 53 → to_number i = i))
  ∧ (∀ a, filled a → err e = true ∨ MAX_ROWID ≤ last_rowid d →
          post_reservations e (body_of a) d =
          (mkres 500 (Json (JError "Error al guardar la reserva")), d)).
Proof.
  split; [|split].
  - intros b Hb. apply required_incomplete in Hb.
    unfold post_reservations. by rewrite Hb.
  - intros a Ha He Hlt i. split; [by apply post_reservations_ok|]. split.
    + intros r Hr%last_rowid_ge. unfold i. lia.
    + intros Hi. apply to_number_small.
      pose proof (last_rowid_nonneg d). unfold i in *. lia.
  - intros a Ha Hf. unfold post_reservations.
    rewrite required_body_of by done. by rewrite stmt_run_fail.
Qed.

Lemma post_reservations_outcome_witness :
  let e := mkworld false "2024-05-20 10:00:00" in
  let d := mkdb [ Reservation.mk 4 2 "Eva" "eva@example.org" "302" "2024-06-05" "2024-06-07" "t" ] 7 in
  post_reservations e
    (Body.mk (Some 1) (Some "Ana") None (Some "300") (Some "2024-06-01") (Some "2024-06-03")) d
  = (mkres 400 (Json (JError "Datos incompletos")), d)
  ∧ post_reservations e
      (Body.mk (Some 1) (Some "Ana") (Some "ana@example.org") (Some "300")
         (Some "2024-06-01") (Some "2024-06-03")) d
    = (mkres 200 (Json (JId 8)),
       mkdb [ Reservation.mk 4 2 "Eva" "eva@example.org" "302" "2024-06-05" "2024-06-07" "t";
              Reservation.mk 8 1 "Ana" "ana@example.org" "300" "2024-06-01" "2024-06-03"
                "2024-05-20 10:00:00" ] 8)
  ∧ post_reservations (mkworld true "2024-05-20 10:00:00")
      (Body.mk (Some 1) (Some "Ana") (Some "ana@example.org") (Some "300")
         (Some "2024-06-01") (Some "2024-06-03")) d
    = (mkres 500 (Json (JError "Error al guardar la reserva")), d).
Proof.
  intros e d.
  pose (a := mkargs 1 "Ana" "ana@example.org" "300" "2024-06-01" "2024-06-03").
  assert (filled a) as Ha by (by vm_compute).
  split; [|split].
  - apply (proj1 (post_reservations_outcome e d)).
    vm_compute. tauto.
  - apply (proj1 (proj1 (proj2 (post_reservations_outcome e d)) a Ha eq_refl
                    ltac:(by vm_compute))).
  - apply (proj2 (proj2 (post_reservations_outcome (mkworld true _) d)) a Ha).
    by left.
Defined.



(** ** Keys *)

Lemma ids_le_last_rowid (d : database) : Forall (λ j, j ≤ last_rowid d) (ids d).
Proof.
  apply Forall_forall. intros j (r & -> & Hr)%list_elem_of_fmap.
  by apply last_rowid_ge.
Qed.

Lemma route_rooms_reservations (path : string) :
  route "/api/rooms" path = true → route "/api/reservations" path = false.
Proof.
  unfold route. intros H.
  apply orb_true_iff in H as [H|H]; apply bool_decide_eq_true in H; rewrite H; done.
Qed.

(** One request either leaves the store alone and announces no key, or
    appends one row under the next key, one more than the largest rowid so
    far, and announces it as a number; the array of rooms is never
    written. *)
Lemma app_step (e : world) (req : request) (s : server) :
  catalog (app e req s).2 = catalog s
  ∧ ((db (app e req s).2 = db s ∧ announced (app e req s).1 = None)
     ∨ (∃ a, announced (app e req s).1 = Some (to_number (last_rowid (db s) + 1))
             ∧ db (app e req s).2
               = mkdb (reservations (db s) ++ [row_of (last_rowid (db s) + 1) a (now e)])
                   (last_rowid (db s) + 1))).
Proof.
  destruct req as [path q|path b]; simpl.
  - destruct (route "/api/rooms" path); [by split; [|left]|].
    destruct (route "/api/reservations" path); simpl; [|by split; [|left]].
    split; [done|left; split; [done|]].
    unfold get_reservations. by destruct (db_all _ _ _).
  - destruct (route "/api/reservations" path); simpl; [|by split; [|left]].
    unfold post_reservations.
    destruct (required b) as [a|]; [|by split; [|left]].
    destruct (stmt_run e a (db s)) as [[n d']|] eqn:Hrun; [|by split; [|left]].
    apply stmt_run_inv in Hrun as (_ & _ & -> & ->). simpl.
    split; [done|right]. by exists a.
Qed.

(** Over a run: the catalog is kept; the table gains the rows the
    responses announce, in order, under keys that ascend from above the
    largest rowid of the start. *)
Lemma serve_rows (reqs : list (world * request)) (s : server) :
  ∃ new,
    catalog (serve reqs s).2 = catalog s
    ∧ reservations (db (serve reqs s).2) = reservations (db s) ++ new
    ∧ omap announced (serve reqs s).1 = to_number <$> (Reservation.id <$> new)
    ∧ Forall (λ r, last_rowid (db s) < Reservation.id r) new
    ∧ StronglySorted Z.lt (Reservation.id <$> new).
Proof.
  revert s. induction reqs as [|[e req] reqs IH]; intros s; simpl.
  { exists []. rewrite app_nil_r. repeat split; constructor. }
  pose proof (app_step e req s) as [Hc Hstep].
  destruct (app e req s) as [res s1]. simpl in *.
  destruct (IH s1) as (new & Hc2 & Hrows & Hann & Hgt & Hsorted).
  destruct (serve reqs s1) as [ress s2]. simpl in *.
  destruct Hstep as [[Hdb Hnone]|(a & Hsome & Hdb)].
  - exists new. rewrite Hnone, <- Hdb. split; [congruence|done].
  - set (i := last_rowid (db s) + 1) in *.
    assert (last_rowid (db s1) = i) as Hl.
    { rewrite Hdb. apply last_rowid_insert. }
    exists (row_of i a (now e) :: new). rewrite Hsome.
    split; [congruence|]. split; [|split; [|split]].
    + rewrite Hrows, Hdb. simpl. by rewrite <- app_assoc.
    + rewrite !fmap_cons. f_equal. exact Hann.
    + constructor; [simpl; lia|]. eapply Forall_impl; [done|]. simpl. lia.
    + simpl. constructor; [done|]. rewrite Forall_fmap.
      eapply Forall_impl; [done|]. simpl. lia.
Qed.

(** C7. Keys are assigned by the store, unique and ascending: over any run
    of requests from any store, the keys of the table are those it had
    followed by the keys of the rows inserted, each distinct from and
    strictly greater than every key in the table before its insert (those
    of the initial table and those inserted earlier).  Each 200 answer of
    an insert announces its key as a JavaScript number: the key itself as
    long as the keys are at most [2^53]. *)
Theorem ids_unique_ascending (reqs : list (world * request)) (s : server) :
  let s' := (serve reqs s).2 in
  let new := drop (length (ids (db s))) (ids (db s')) in
  ids (db s') = ids (db s) ++ new
  ∧ (∀ (k : nat) (i : Z), new !! k = Some i →
       Forall (λ j, j < i ∧ j ≠ i) (ids (db s) ++ take k new))
  ∧ omap announced (serve reqs s).1 = to_number <$> new
  ∧ (last_rowid (db s') ≤ 2 ^ 53 → omap announced (serve reqs s).1 = new).
Proof.
  intros s' new.
  destruct (serve_rows reqs s) as (rows & _ & Hrows & Hann & Hgt & Hsorted).
  fold s' in Hrows.
  assert (ids (db s') = ids (db s) ++ (Reservation.id <$> rows)) as Hids.
  { unfold ids. by rewrite Hrows, fmap_app. }
  assert (new = Reservation.id <$> rows) as Hnew.
  { unfold new. by rewrite Hids, drop_app_length. }
  rewrite Hnew. split; [done|]. split; [|split; [done|]].
  - intros k i Hk.
    apply (Forall_impl (λ j, j < i)); [|intros j Hj; lia].
    apply Forall_app. split.
    + pose proof (ids_le_last_rowid (db s)) as Hle.
      eapply Forall_impl; [done|]. simpl. intros j Hj.
      apply list_lookup_fmap_Some in Hk as (r & -> & Hr).
      eapply Forall_lookup_1 in Hgt; [|done]. simpl in Hgt. lia.
    + apply Forall_forall. intros j Hj.
      rewrite <- (take_drop k (Reservation.id <$> rows)) in Hsorted.
      eapply StronglySorted_app_1_elem_of; [done..|].
      apply list_elem_of_lookup. exists 0%nat.
      by rewrite lookup_drop, Nat.add_0_r.
  - intros Hsmall. rewrite Hann. clear Hann Hsorted Hnew.
    assert (Forall (λ r, Z.abs (Reservation.id r) ≤ 2 ^ 53) rows) as Hall.
    { apply Forall_forall. intros r Hr.
      assert (r ∈ reservations (db s')) as Hin by (rewrite Hrows; set_solver).
      apply last_rowid_ge in Hin.
      rewrite Forall_forall in Hgt. specialize (Hgt r Hr). simpl in Hgt.
      pose proof (last_rowid_nonneg (db s)). lia. }
    clear -Hall. induction Hall as [|r rows' Hr _ IH]; [done|].
    rewrite !fmap_cons, IH. by rewrite to_number_small.
Qed.

Lemma ids_unique_ascending_witness :
  let e := mkworld false "2024-05-20 10:00:00" in
  let b1 := body_of (mkargs 1 "Ana" "ana@example.org" "300" "2024-06-01" "2024-06-03") in
  let b2 := body_of (mkargs 1 "Luz" "luz@example.org" "301" "2024-06-02" "2024-06-04") in
  let s := boot (mkdb [ Reservation.mk 4 2 "Eva" "eva@example.org" "302"
                          "2024-06-05" "2024-06-07" "t" ] 7) in
  let reqs := [ (e, POST "/api/reservations" b1);
                (e, GET "/api/reservations" (Query.mk None None));
                (e, POST "/api/reservations" b2) ] in
  let big := boot (mkdb [ Reservation.mk (2 ^ 53) 2 "Eva" "eva@example.org" "302"
                            "2024-06-05" "2024-06-07" "t" ] (2 ^ 53)) in
  (ids (db (serve reqs s).2) = [4; 8; 9]
   ∧ Forall (λ j, j < 9 ∧ j ≠ 9) [4; 8]
   ∧ omap announced (serve reqs s).1 = [8; 9])
  ∧ (ids (db (serve reqs big).2) = [2 ^ 53; 2 ^ 53 + 1; 2 ^ 53 + 2]
     ∧ Forall (λ j, j < 2 ^ 53 + 1 ∧ j ≠ 2 ^ 53 + 1) [2 ^ 53]
     ∧ omap announced (serve reqs big).1 = [2 ^ 53; 2 ^ 53 + 2]).
Proof.
  intros e b1 b2 s reqs big. split.
  - destruct (ids_unique_ascending reqs s) as (H1 & H2 & _ & H4).
    split; [by vm_compute|]. split.
    + specialize (H2 1%nat 9). vm_compute in H2. vm_compute. exact (H2 eq_refl).
    + refine (eq_trans (H4 _) _); by vm_compute.
  - destruct (ids_unique_ascending reqs big) as (H1 & H2 & H3 & _).
    split; [by vm_compute|]. split.
    + pose proof (H2 0%nat (2 ^ 53 + 1)) as H2'.
      match type of H2' with _ → Forall _ ?l =>
        assert (l = [2 ^ 53]) as E by (by vm_compute); rewrite E in H2' end.
      apply H2'. by vm_compute.
    + refine (eq_trans H3 _). by vm_compute.
Defined.

(** ** The catalog *)

(** C9. [GET /api/rooms] does not depend on the reservations: after any run
    of requests from any store the server still holds the catalog it
    started with, and answers 200 with it: twelve rooms, ids 1 to 12, all
    of capacity 2, the first six without air conditioning at 30000 and the
    last six with it at 60000. *)
Theorem get_rooms_constant
    (reqs : list (world * request)) (d : database) (e : world) (q : Query.t) :
  let s := (serve reqs (boot d)).2 in
  catalog s = rooms
  ∧ (app e (GET "/api/rooms" q) s).1 = mkres 200 (Json (JRooms rooms))
  ∧ (app e (GET "/api/rooms" q) s).2 = s
  ∧ length rooms = 12%nat
  ∧ Room.id <$> rooms = [1; 2; 3; 4; 5; 6; 7; 8; 9; 10; 11; 12]
  ∧ Forall (λ r, Room.capacity r = 2) rooms
  ∧ Forall (λ r, Room.ac r = false ∧ Room.price r = 30000) (take 6 rooms)
  ∧ Forall (λ r, Room.ac r = true ∧ Room.price r = 60000) (drop 6 rooms).
Proof.
  intros s.
  assert (catalog s = rooms) as Hc.
  { destruct (serve_rows reqs (boot d)) as (new & H & _). unfold s. by rewrite H. }
  split; [done|]. split; [by simpl; rewrite Hc|]. split; [done|].
  split; [done|]. split; [done|].
  repeat split; by repeat constructor.
Qed.

(** * Dates: text order and calendar order *)

Lemma code_digit (n : Z) : code (digit n) = 48 + n mod 10.
Proof.
  unfold code, digit. rewrite N_ascii_embedding.
  - rewrite Z2N.id; [done|]. pose proof (Z.mod_pos_bound n 10). lia.
  - pose proof (Z.mod_pos_bound n 10). lia.
Qed.

Lemma ascii_compare_code (c1 c2 : ascii) :
  Ascii.compare c1 c2 = (code c1 ?= code c2).
Proof. unfold Ascii.compare, code. by rewrite N2Z.inj_compare. Qed.

Lemma digit_compare (m n : Z) :
  Ascii.compare (digit m) (digit n) = (m mod 10 ?= n mod 10).
Proof.
  rewrite ascii_compare_code, !code_digit.
  apply Z.add_compare_mono_l.
Qed.

Lemma ascii_compare_refl (c : ascii) : Ascii.compare c c = Eq.
Proof. rewrite ascii_compare_code. apply Z.compare_refl. Qed.

Lemma string_compare_refl (s : string) : String.compare s s = Eq.
Proof. induction s as [|c s IH]; simpl; [done|]. by rewrite ascii_compare_refl. Qed.

Lemma string_compare_app (p s t : string) :
  String.compare (p +:+ s) (p +:+ t) = String.compare s t.
Proof. induction p as [|c p IH]; simpl; [done|]. by rewrite ascii_compare_refl. Qed.

Lemma pad2_compare (m n : Z) (s t : string) :
  0 ≤ m < 100 → 0 ≤ n < 100 →
  String.compare (pad2 m +:+ s) (pad2 n +:+ t)
  = then_compare (m ?= n) (String.compare s t).
Proof.
  intros Hm Hn. unfold pad2. simpl. rewrite !digit_compare.
  destruct (Z.compare_spec (m / 10 mod 10) (n / 10 mod 10)) as [H1|H1|H1];
    destruct (Z.compare_spec (m mod 10) (n mod 10)) as [H2|H2|H2];
    destruct (Z.compare_spec m n) as [H|H|H]; simpl; try done;
    exfalso; revert H1 H2; Z.div_mod_to_equations; lia.
Qed.

Lemma pad2_mod_100 (n : Z) : pad2 n = pad2 (n mod 100).
Proof.
  unfold pad2, digit.
  replace (n mod 100 / 10 mod 10) with (n / 10 mod 10)
    by (Z.div_mod_to_equations; lia).
  replace (n mod 100 mod 10) with (n mod 10)
    by (Z.div_mod_to_equations; lia).
  done.
Qed.

Lemma pad4_compare (m n : Z) (s t : string) :
  0 ≤ m < 10000 → 0 ≤ n < 10000 →
  String.compare (pad4 m +:+ s) (pad4 n +:+ t)
  = then_compare (m ?= n) (String.compare s t).
Proof.
  intros Hm Hn. unfold pad4.
  change (String ?a (String ?b (pad2 m)) +:+ s)
    with (String a (String b (pad2 m +:+ s))).
  change (String ?a (String ?b (pad2 n)) +:+ t)
    with (String a (String b (pad2 n +:+ t))).
  cbn [String.compare]. rewrite !digit_compare.
  rewrite (pad2_mod_100 m), (pad2_mod_100 n).
  rewrite pad2_compare by (Z.div_mod_to_equations; lia).
  destruct (Z.compare_spec (m / 1000 mod 10) (n / 1000 mod 10)) as [H1|H1|H1];
    destruct (Z.compare_spec (m / 100 mod 10) (n / 100 mod 10)) as [H2|H2|H2];
    destruct (Z.compare_spec (m mod 100) (n mod 100)) as [H3|H3|H3];
    destruct (Z.compare_spec m n) as [H|H|H]; simpl; try done;
    exfalso; revert H1 H2 H3; Z.div_mod_to_equations; lia.
Qed.

Lemma string_app_assoc (s t u : string) : (s +:+ t) +:+ u = s +:+ (t +:+ u).
Proof.
  induction s as [|c s IH]; [done|].
  change (String c ((s +:+ t) +:+ u) = String c (s +:+ (t +:+ u))). by f_equal.
Qed.

Lemma string_app_nil_r (s : string) : s +:+ "" = s.
Proof.
  induction s as [|c s IH]; [done|].
  change (String c (s +:+ "") = String c s). by f_equal.
Qed.

Lemma at_least4_four (n : Z) : n < 10000 → at_least4 n = pad4 n.
Proof. intros H. unfold at_least4. by destruct (Z.ltb_spec n 10000); [|lia]. Qed.

Lemma iso_year_four (y : Z) : 0 ≤ y ≤ 9999 → iso_year y = pad4 y.
Proof.
  intros H. unfold iso_year.
  destruct (Z.leb_spec 0 y); [|lia]. by destruct (Z.leb_spec y 9999); [|lia].
Qed.

Lemma decimal_nonempty (fuel : nat) (n : Z) (acc : string) :
  acc ≠ "" → decimal fuel n acc ≠ "".
Proof.
  revert n acc. induction fuel as [|fuel IH]; intros n acc Hacc; simpl; [done|].
  destruct (n <? 10); [done|]. by apply IH.
Qed.

Lemma at_least4_nonempty (n : Z) : at_least4 n ≠ "".
Proof.
  unfold at_least4. destruct (n <? 10000); [done|]. simpl.
  destruct (n <? 10); [done|]. by apply decimal_nonempty.
Qed.

Lemma at_least6_nonempty (n : Z) : at_least6 n ≠ "".
Proof.
  unfold at_least6. destruct (n <? 1000000); [done|]. simpl.
  destruct (n <? 10); [done|]. by apply decimal_nonempty.
Qed.

Lemma string_app_nonempty (s t : string) : s ≠ "" → s +:+ t ≠ "".
Proof. by destruct s. Qed.

Lemma date_string_nonempty (d : date) : date_string d ≠ "".
Proof.
  unfold date_string. apply string_app_nonempty, at_least4_nonempty.
Qed.

Lemma toISOString_nonempty (d : date) : toISOString d ≠ "".
Proof.
  unfold toISOString. apply string_app_nonempty.
  unfold iso_year. destruct (_ && _); [done|]. by destruct (year d <? 0).
Qed.

(** For a year of four digits the ISO timestamp is the bare date followed
    by the time of midnight. *)
Lemma toISOString_valid (d : date) :
  valid_date d → toISOString d = date_string d +:+ "T00:00:00.000Z".
Proof.
  intros (Hy & _ & _). unfold toISOString, date_string.
  rewrite iso_year_four, at_least4_four by lia.
  by rewrite !string_app_assoc.
Qed.

Lemma date_string_compare_app (d1 d2 : date) (s t : string) :
  valid_date d1 → valid_date d2 →
  String.compare (date_string d1 +:+ s) (date_string d2 +:+ t)
  = then_compare (date_compare d1 d2) (String.compare s t).
Proof.
  intros (Hy1 & Hm1 & Hd1) (Hy2 & Hm2 & Hd2).
  assert (∀ y m, DaysInMonth y m ≤ 31) as Hdim.
  { intros y m. unfold DaysInMonth. repeat case_decide; try case_match; lia. }
  pose proof (Hdim (year d1) (month d1)). pose proof (Hdim (year d2) (month d2)).
  unfold date_string. rewrite !at_least4_four by lia. rewrite !string_app_assoc.
  rewrite pad4_compare by lia.
  rewrite (string_compare_app "-").
  rewrite pad2_compare by lia.
  rewrite (string_compare_app "-").
  rewrite pad2_compare by lia.
  unfold date_compare.
  by destruct (year d1 ?= year d2), (month d1 ?= month d2), (day d1 ?= day d2).
Qed.

Lemma then_compare_Eq_r (x : comparison) : then_compare x Eq = x.
Proof. by destruct x. Qed.

Lemma date_string_compare (d1 d2 : date) :
  valid_date d1 → valid_date d2 →
  String.compare (date_string d1) (date_string d2) = date_compare d1 d2.
Proof.
  intros H1 H2.
  pose proof (date_string_compare_app d1 d2 "" "" H1 H2) as H.
  rewrite !string_app_nil_r in H. rewrite H. simpl. apply then_compare_Eq_r.
Qed.

Lemma toISOString_compare (d1 d2 : date) :
  valid_date d1 → valid_date d2 →
  String.compare (toISOString d1) (toISOString d2) = date_compare d1 d2.
Proof.
  intros H1 H2. rewrite !toISOString_valid by done.
  rewrite date_string_compare_app by done.
  rewrite string_compare_refl. apply then_compare_Eq_r.
Qed.

(** ** The day number follows the calendar *)

Lemma DayFromYear_succ (y : Z) :
  DayFromYear (y + 1) = DayFromYear y + (if InLeapYear y then 366 else 365).
Proof.
  unfold DayFromYear, InLeapYear.
  destruct (Z.eqb_spec (y mod 4) 0), (Z.eqb_spec (y mod 100) 0),
    (Z.eqb_spec (y mod 400) 0); simpl; Z.div_mod_to_equations; lia.
Qed.

Lemma DayFromYear_mono (y1 y2 : Z) : y1 ≤ y2 → DayFromYear y1 ≤ DayFromYear y2.
Proof. unfold DayFromYear. intros H. Z.div_mod_to_equations. lia. Qed.

Lemma month_cases (m : Z) :
  1 ≤ m ≤ 12 →
  m = 1 ∨ m = 2 ∨ m = 3 ∨ m = 4 ∨ m = 5 ∨ m = 6 ∨ m = 7 ∨ m = 8 ∨ m = 9
  ∨ m = 10 ∨ m = 11 ∨ m = 12.
Proof. lia. Qed.

Lemma DaysBeforeMonth_succ (y m : Z) :
  1 ≤ m ≤ 11 →
  DaysBeforeMonth y (m + 1) = DaysBeforeMonth y m + DaysInMonth y m.
Proof.
  intros Hm. assert (1 ≤ m ≤ 12) as Hc by lia.
  apply month_cases in Hc.
  unfold DaysBeforeMonth, DaysInMonth.
  destruct Hc as [->|[->|[->|[->|[->|[->|[->|[->|[->|[->|[->| ->]]]]]]]]]]];
    try lia; destruct (InLeapYear y); reflexivity.
Qed.

Lemma DaysBeforeMonth_last (y : Z) :
  DaysBeforeMonth y 12 + DaysInMonth y 12 = if InLeapYear y then 366 else 365.
Proof. unfold DaysBeforeMonth, DaysInMonth. by destruct (InLeapYear y). Qed.

Lemma DaysInMonth_pos (y m : Z) : 28 ≤ DaysInMonth y m.
Proof. unfold DaysInMonth. repeat case_decide; try case_match; lia. Qed.

Lemma DaysBeforeMonth_lt (y m1 m2 : Z) :
  1 ≤ m1 → m1 < m2 → m2 ≤ 12 →
  DaysBeforeMonth y m1 + DaysInMonth y m1 ≤ DaysBeforeMonth y m2.
Proof.
  intros H1 Hlt H2.
  assert (∃ k : nat, m2 = m1 + 1 + Z.of_nat k) as [k ->].
  { exists (Z.to_nat (m2 - m1 - 1)). lia. }
  clear Hlt. induction k as [|k IH].
  - rewrite Z.add_0_r. rewrite DaysBeforeMonth_succ by lia. lia.
  - replace (m1 + 1 + Z.of_nat (S k)) with ((m1 + 1 + Z.of_nat k) + 1) by lia.
    rewrite DaysBeforeMonth_succ by lia.
    pose proof (DaysInMonth_pos y (m1 + 1 + Z.of_nat k)).
    specialize (IH ltac:(lia)). lia.
Qed.

Lemma DaysBeforeMonth_nonneg (y m : Z) : 0 ≤ DaysBeforeMonth y m.
Proof.
  unfold DaysBeforeMonth.
  assert (0 ≤ nth (Z.to_nat (m - 1)) [0; 31; 59; 90; 120; 151; 181; 212; 243; 273; 304; 334] 0).
  { generalize (Z.to_nat (m - 1)). intros n.
    do 12 (destruct n as [|n]; [simpl; lia|]). simpl. by destruct n. }
  case_match; lia.
Qed.

Lemma MakeDay_year_bounds (d : date) :
  valid_date d →
  DayFromYear (year d) ≤ MakeDay d < DayFromYear (year d + 1).
Proof.
  intros (Hy & Hm & Hd). unfold MakeDay. rewrite DayFromYear_succ.
  pose proof (DaysBeforeMonth_nonneg (year d) (month d)).
  rewrite <- DaysBeforeMonth_last.
  destruct (decide (month d = 12)) as [E|Hne]; [rewrite E in *; lia|].
  pose proof (DaysBeforeMonth_lt (year d) (month d) 12).
  pose proof (DaysInMonth_pos (year d) 12). lia.
Qed.

Lemma MakeDay_lt (d1 d2 : date) :
  valid_date d1 → valid_date d2 → date_compare d1 d2 = Lt → MakeDay d1 < MakeDay d2.
Proof.
  intros H1 H2. unfold date_compare.
  destruct (Z.compare_spec (year d1) (year d2)) as [Hy|Hy|Hy]; simpl; [| |done].
  - destruct (Z.compare_spec (month d1) (month d2)) as [Hm|Hm|Hm]; simpl; [| |done].
    + intros Hd. rewrite Z.compare_lt_iff in Hd. unfold MakeDay. rewrite Hy, Hm. lia.
    + intros _. destruct H1 as (_ & ? & ?), H2 as (_ & ? & ?).
      pose proof (DaysBeforeMonth_lt (year d2) (month d1) (month d2)).
      unfold MakeDay. rewrite Hy in *. lia.
  - intros _. apply MakeDay_year_bounds in H1, H2.
    pose proof (DayFromYear_mono (year d1 + 1) (year d2)). lia.
Qed.

Lemma date_compare_antisym (d1 d2 : date) :
  date_compare d2 d1 = CompOpp (date_compare d1 d2).
Proof.
  unfold date_compare.
  rewrite (Z.compare_antisym (year d1)), (Z.compare_antisym (month d1)),
    (Z.compare_antisym (day d1)).
  by destruct (year d1 ?= year d2), (month d1 ?= month d2), (day d1 ?= day d2).
Qed.

Lemma date_compare_eq (d1 d2 : date) : date_compare d1 d2 = Eq → d1 = d2.
Proof.
  unfold date_compare. destruct d1 as [y1 m1 n1], d2 as [y2 m2 n2]; simpl.
  destruct (Z.compare_spec y1 y2); simpl; [|done..].
  destruct (Z.compare_spec m1 m2); simpl; [|done..].
  intros Hd. apply Z.compare_eq in Hd. congruence.
Qed.

(** For dates of the calendar, the order of the day numbers (and so of the
    time values) is the order of the calendar. *)
Lemma MakeDay_compare (d1 d2 : date) :
  valid_date d1 → valid_date d2 →
  (MakeDay d1 ?= MakeDay d2) = date_compare d1 d2.
Proof.
  intros H1 H2. destruct (date_compare d1 d2) eqn:Hc.
  - apply date_compare_eq in Hc as ->. apply Z.compare_refl.
  - apply Z.compare_lt_iff. by apply MakeDay_lt.
  - apply Z.compare_gt_iff. apply MakeDay_lt; [done..|].
    rewrite date_compare_antisym, Hc. done.
Qed.

(** ** The overlap test on dates written as text *)

Lemma str_le_compare (s t : string) :
  (s ≤ t)%string ↔ String.compare s t ≠ Gt.
Proof.
  unfold String.le, String.leb. destruct (String.compare s t); simpl; naive_solver.
Qed.

Lemma matches_compare (p1 p2 : string) (r : Reservation.t) :
  matches (NotEndedOrNotStarted p1 p2) r
  ↔ String.compare (Reservation.checkOut r) p1 = Gt
    ∧ String.compare (Reservation.checkIn r) p2 = Lt.
Proof.
  simpl. unfold str_ge. rewrite !str_le_compare.
  rewrite (String.compare_antisym (Reservation.checkIn r) p2).
  destruct (String.compare (Reservation.checkOut r) p1),
    (String.compare p2 (Reservation.checkIn r)); simpl; naive_solver.
Qed.

Lemma string_compare_prefix (s t : string) :
  t ≠ "" → String.compare s (s +:+ t) = Lt.
Proof.
  intros Ht. induction s as [|c s IH].
  - by destruct t.
  - change (String.compare (String c s) (String c (s +:+ t)) = Lt).
    simpl. by rewrite ascii_compare_refl.
Qed.

Lemma time_compare (x y : Z) : (x * msPerDay ?= y * msPerDay) = (x ?= y).
Proof.
  unfold msPerDay. destruct (Z.compare_spec x y).
  - apply Z.compare_eq_iff. lia.
  - apply Z.compare_lt_iff. lia.
  - apply Z.compare_gt_iff. lia.
Qed.

Lemma matches_same_format (f : date → string) (ci co a b : date) (r : Reservation.t) :
  (∀ d1 d2, valid_date d1 → valid_date d2 →
            String.compare (f d1) (f d2) = date_compare d1 d2) →
  valid_date ci → valid_date co → valid_date a → valid_date b →
  Reservation.checkIn r = f ci → Reservation.checkOut r = f co →
  matches (NotEndedOrNotStarted (f a) (f b)) r ↔ overlaps_in_time ci co a b.
Proof.
  intros Hf Hci Hco Ha Hb Hin Hout.
  rewrite matches_compare, Hin, Hout, !Hf by done.
  rewrite <- !MakeDay_compare by done.
  rewrite Z.compare_gt_iff, Z.compare_lt_iff.
  unfold overlaps_in_time, msPerDay. lia.
Qed.


(** ** Insert, then query *)

(** The round trip as worded fails with the texts the page itself writes.
    The form posts the bare values of the date fields and the availability
    request carries ISO timestamps: the stay from 5 June to 7 June 2024 is
    returned for the range from 3 June to 5 June, which ends the day the
    stay begins and is disjoint from it. *)
Lemma insert_then_query_counterexample :
  let e := mkworld false "2024-05-20 10:00:00" in
  let ci := mkdate 2024 6 5 in
  let co := mkdate 2024 6 7 in
  let wi := mkdate 2024 6 3 in
  let wo := mkdate 2024 6 5 in
  let a := mkargs 1 "Eva" "eva@example.org" "300" (date_string ci) (date_string co) in
  let r := Reservation.mk 1 1 "Eva" "eva@example.org" "300" "2024-06-05" "2024-06-07"
             "2024-05-20 10:00:00" in
  let d1 := (post_reservations e (body_of a) (mkdb [] 0)).2 in
  post_reservations e (body_of a) (mkdb [] 0)
  = (mkres 200 (Json (JId 1)), mkdb [r] 1)
  ∧ MakeDay wi * msPerDay < MakeDay wo * msPerDay
  ∧ MakeDay wo * msPerDay ≤ MakeDay ci * msPerDay
  ∧ ¬ overlaps_in_time ci co wi wo
  ∧ get_reservations e (Query.mk (Some (toISOString wi)) (Some (toISOString wo))) d1
    = mkres 200 (Json (JRows [r])).
Proof.
  repeat split; try by vm_compute.
  intros H. apply H. right. by vm_compute.
Qed.

(** C3. Insert, then query, for texts of one same format.  Let the two dates
    of the reservation and the two bounds of the range be valid dates of
    years 1 to 9999, all four written by [f], which is either the bare
    [yyyy-mm-dd] of a date field or the ISO timestamp of midnight; let the
    stay and the range each begin before they end, the other four values be
    truthy and the engine accept the insert and the query.  Then the
    [POST] answers 200 and appends the row [r] holding the six values under
    the next key; the query answers 200 with the selected rows as JS reads
    them; a range that contains the stay selects [r], and a range disjoint
    from the stay does not. *)
Theorem insert_then_query
    (e1 e2 : world) (roomId : Z) (name email phone : string) (d : database)
    (f : date → string) (ci co wi wo : date) :
  f = date_string ∨ f = toISOString →
  valid_date ci → valid_date co → valid_date wi → valid_date wo →
  roomId ≠ 0 → name ≠ "" → email ≠ "" → phone ≠ "" →
  MakeDay ci * msPerDay < MakeDay co * msPerDay →
  MakeDay wi * msPerDay < MakeDay wo * msPerDay →
  err e1 = false → last_rowid d < MAX_ROWID → err e2 = false →
  let a := mkargs roomId name email phone (f ci) (f co) in
  let i := last_rowid d + 1 in
  let r := Reservation.mk i roomId name email phone (f ci) (f co) (now e1) in
  let d1 := (post_reservations e1 (body_of a) d).2 in
  let rows := filter (matches (NotEndedOrNotStarted (f wi) (f wo))) (reservations d1) in
  (post_reservations e1 (body_of a) d).1 = mkres 200 (Json (JId (to_number i)))
  ∧ reservations d1 = reservations d ++ [r]
  ∧ get_reservations e2 (Query.mk (Some (f wi)) (Some (f wo))) d1
    = mkres 200 (Json (JRows (js_row <$> rows)))
  ∧ (MakeDay wi * msPerDay ≤ MakeDay ci * msPerDay
     ∧ MakeDay co * msPerDay ≤ MakeDay wo * msPerDay →
     r ∈ rows ∧ js_row r ∈ js_row <$> rows)
  ∧ (MakeDay wo * msPerDay ≤ MakeDay ci * msPerDay
     ∨ MakeDay co * msPerDay ≤ MakeDay wi * msPerDay →
     r ∉ rows).
Proof.
  intros Hf Hci Hco Hwi Hwo Hroom Hname Hemail Hphone Hstay Hrange He1 Hfull He2
    a i r d1 rows.
  assert (∀ x, f x ≠ "") as Hne.
  { intros x. destruct Hf as [->| ->];
      [apply date_string_nonempty|apply toISOString_nonempty]. }
  assert (∀ x y, valid_date x → valid_date y →
                 String.compare (f x) (f y) = date_compare x y) as Hcmp.
  { intros x y Hx Hy. destruct Hf as [->| ->];
      [by apply date_string_compare|by apply toISOString_compare]. }
  assert (filled a) as Ha by (repeat split; try done; apply Hne).
  assert (matches (NotEndedOrNotStarted (f wi) (f wo)) r
          ↔ overlaps_in_time ci co wi wo) as Hm
    by (by apply (matches_same_format f)).
  assert (reservations d1 = reservations d ++ [r]) as Hd1.
  { unfold d1. by rewrite (post_reservations_ok e1 a d). }
  assert (r ∈ rows ↔ overlaps_in_time ci co wi wo) as Hin.
  { unfold rows. rewrite list_elem_of_filter, Hm, Hd1, elem_of_app, list_elem_of_singleton.
    naive_solver. }
  split; [by rewrite (post_reservations_ok e1 a d)|].
  split; [done|].
  split.
  { rewrite get_reservations_range by done. unfold db_all. by rewrite He2. }
  split.
  - intros [H1 H2].
    assert (r ∈ rows) as Hr.
    { apply Hin. unfold overlaps_in_time. lia. }
    split; [done|]. by apply list_elem_of_fmap_2.
  - intros H Hr. apply Hin in Hr. unfold overlaps_in_time in Hr. lia.
Qed.

Lemma insert_then_query_witness :
  let e := mkworld false "2024-05-20 10:00:00" in
  let r := Reservation.mk 1 1 "Eva" "eva@example.org" "300" "2024-06-05" "2024-06-07"
             "2024-05-20 10:00:00" in
  let d1 := mkdb [r] 1 in
  post_reservations e
    (Body.mk (Some 1) (Some "Eva") (Some "eva@example.org") (Some "300")
       (Some "2024-06-05") (Some "2024-06-07")) (mkdb [] 0)
  = (mkres 200 (Json (JId 1)), d1)
  ∧ get_reservations e (Query.mk (Some "2024-06-04") (Some "2024-06-08")) d1
    = mkres 200 (Json (JRows [r]))
  ∧ r ∈ filter (matches (NotEndedOrNotStarted "2024-06-04" "2024-06-08")) (reservations d1).
Proof.
  intros e r d1.
  pose proof (insert_then_query e e 1 "Eva" "eva@example.org" "300" (mkdb [] 0)
                date_string (mkdate 2024 6 5) (mkdate 2024 6 7)
                (mkdate 2024 6 4) (mkdate 2024 6 8)
                (or_introl eq_refl)
                ltac:(by vm_compute) ltac:(by vm_compute)
                ltac:(by vm_compute) ltac:(by vm_compute)
                ltac:(done) ltac:(done) ltac:(done) ltac:(done)
                ltac:(by vm_compute) ltac:(by vm_compute)
                eq_refl ltac:(by vm_compute) eq_refl) as (H1 & H2 & H3 & H4 & _).
  split; [by vm_compute|]. split; [by vm_compute|].
  apply (proj1 (H4 ltac:(by vm_compute))).
Defined.

(** * Properties of the rooms page *)

(** ** Painting the cells *)

(** When every room of [rs] has a cell and [f] never throws, the loop ends
    normally: the rooms of [rs] show what [f] says (the last room of an id
    wins) and the other cells are untouched. *)
Lemma forEach_paint_ok (f : Room.t → option cell) (rs : list Room.t) (c : gmap Z cell) :
  (∀ room, room ∈ rs → is_Some (f room) ∧ is_Some (c !! Room.id room)) →
  ∃ c', forEach_paint f rs c = (c', true)
        ∧ dom c' = dom c
        ∧ (∀ k, k ∉ Room.id <$> rs → c' !! k = c !! k)
        ∧ (∀ room, room ∈ rs → ∃ room', room' ∈ rs ∧ Room.id room' = Room.id room
                                        ∧ c' !! Room.id room = f room').
Proof.
  revert c. induction rs as [|room rs IH]; intros c Hrs.
  { exists c. split; [done|]. split; [done|]. split; [done|]. by intros ? ?%elem_of_nil. }
  destruct (Hrs room) as [[x Hx] [y Hy]]; [by left|].
  simpl. rewrite Hx, Hy.
  destruct (IH (<[Room.id room := x]> c)) as (c' & Hrun & Hdom & Hother & Hpaint).
  { intros room' Hin. split; [by apply Hrs; right|].
    destruct (decide (Room.id room = Room.id room')) as [->|Hne].
    - rewrite lookup_insert_eq. by eexists.
    - rewrite lookup_insert_ne by done. by apply Hrs; right. }
  exists c'. split; [done|]. split; [|split].
  - rewrite Hdom, dom_insert_L.
    assert (Room.id room ∈ dom c) by (apply elem_of_dom; by eexists). set_solver.
  - intros k Hk. apply not_elem_of_cons in Hk as [Hk1 Hk2].
    rewrite Hother by done. by rewrite lookup_insert_ne.
  - intros room' Hin.
    destruct (decide (Room.id room' ∈ Room.id <$> rs)) as [Hin'|Hnin].
    + apply list_elem_of_fmap in Hin' as (room'' & Heq & Hin'').
      destruct (Hpaint room'' Hin'') as (r3 & Hr3 & Hid & Hl).
      exists r3. split; [by right|]. split; [congruence|]. by rewrite Heq.
    + apply elem_of_cons in Hin as [->|Hin].
      * exists room. split; [by left|]. split; [done|].
        rewrite Hother by done. by rewrite lookup_insert_eq.
      * exfalso. apply Hnin. apply list_elem_of_fmap. by exists room'.
Qed.

Lemma painted_ok (x : cell) (p : page) (reqs : list request) :
  rendered p →
  ∃ c', painted x p reqs = mkout (set_cells c' p) reqs true
        ∧ dom c' = dom (cells p)
        ∧ (∀ k, k ∉ Room.id <$> rooms → c' !! k = cells p !! k)
        ∧ (∀ room, room ∈ rooms → c' !! Room.id room = Some x).
Proof.
  intros Hr. unfold painted.
  destruct (forEach_paint_ok (λ _, Some x) rooms (cells p)) as (c' & -> & Hdom & Ho & Hp).
  { intros room Hin. split; [by eexists|by apply Hr]. }
  exists c'. split; [done|]. split; [done|]. split; [done|].
  intros room Hin. by destruct (Hp room Hin) as (? & _ & _ & ->).
Qed.

(** ** Rejected date pairs *)

Lemma Date_le_Midnight (d1 d2 : date) :
  Date_le (Midnight d1) (Midnight d2) = true
  ↔ MakeDay d1 * msPerDay ≤ MakeDay d2 * msPerDay.
Proof. unfold Date_le. simpl. apply Z.leb_le. Qed.

Lemma updateAvailability_inverted
    {S : Type} (fetch : request → S → option response * S)
    (p : page) (s : S) (ci co : date) :
  checkInInput p = Some ci → checkOutInput p = Some co →
  MakeDay co * msPerDay ≤ MakeDay ci * msPerDay →
  updateAvailability fetch p s = (painted invalid_dates p [], s).
Proof.
  intros Hci Hco Hle%Date_le_Midnight.
  unfold updateAvailability. rewrite Hci, Hco. simpl. by rewrite Hle.
Qed.

Lemma openReservationModal_inverted
    (formatCOP : Z → string) (roomId : Z) (p : page) (ci co : date) :
  checkInInput p = Some ci → checkOutInput p = Some co →
  MakeDay co * msPerDay ≤ MakeDay ci * msPerDay →
  openReservationModal formatCOP roomId p = mkout (alert select_dates p) [] true.
Proof.
  intros Hci Hco Hle%Date_le_Midnight.
  unfold openReservationModal. rewrite Hci, Hco. simpl new_Date.
  rewrite Hle. by rewrite orb_true_r.
Qed.

(** C8. With both date fields filled and the check-out not after the
    check-in (equal days included), the availability refresh writes
    "invalid dates" in the cell of every room and sends no request, and the
    reservation modal does not open (an alert is shown, no request is
    sent): nothing reaches the backend for such a pair. *)
Theorem inverted_dates_rejected
    {S : Type} (fetch : request → S → option response * S)
    (formatCOP : Z → string) (p : page) (s : S) (ci co : date) (roomId : Z) :
  rendered p →
  checkInInput p = Some ci → checkOutInput p = Some co →
  MakeDay co * msPerDay ≤ MakeDay ci * msPerDay →
  let o := (updateAvailability fetch p s).1 in
  let m := openReservationModal formatCOP roomId p in
  sent o = [] ∧ (updateAvailability fetch p s).2 = s ∧ normal o = true
  ∧ (∀ room, room ∈ rooms → cells (after o) !! Room.id room = Some invalid_dates)
  ∧ sent m = []
  ∧ modalShown (after m) = modalShown p
  ∧ reservationForm (after m) = reservationForm p
  ∧ alerts (after m) = alerts p ++ [select_dates].
Proof.
  intros Hr Hci Hco Hle o m. unfold o, m.
  rewrite (updateAvailability_inverted fetch p s ci co) by done.
  rewrite (openReservationModal_inverted formatCOP roomId p ci co) by done.
  destruct (painted_ok invalid_dates p [] Hr) as (c' & -> & _ & _ & Hcells).
  by simpl.
Qed.

Lemma rendered_foldl (p : page) :
  rendered (set_cells (foldl (λ c room, <[Room.id room := mkcell "" "availability"]> c)
                         ∅ rooms) p).
Proof.
  intros room Hin. simpl.
  repeat (apply elem_of_cons in Hin as [->|Hin]; [by vm_compute; eexists|]).
  by apply elem_of_nil in Hin.
Qed.

Lemma inverted_dates_rejected_witness :
  let e := λ _ : nat, mkworld false "2024-05-20 10:00:00" in
  let d := mkdate 2024 6 3 in
  let p := set_cells (foldl (λ c room, <[Room.id room := mkcell "" "availability"]> c)
                        ∅ rooms) (loaded (Some d) (Some d)) in
  sent (updateAvailability (fetch_server e) p (0%nat, boot (mkdb [] 0))).1 = []
  ∧ cells (after (updateAvailability (fetch_server e) p (0%nat, boot (mkdb [] 0))).1) !! 1
    = Some invalid_dates
  ∧ modalShown (after (openReservationModal (λ _, "") 1 p)) = false.
Proof.
  intros e d p.
  pose proof (inverted_dates_rejected (fetch_server e) (λ _, "") p
                (0%nat, boot (mkdb [] 0)) d d 1
                (rendered_foldl _) eq_refl eq_refl ltac:(by vm_compute)) as H.
  destruct H as (H1 & _ & _ & H2 & _ & H3 & _).
  split; [exact H1|]. split; [|exact H3].
  apply (H2 (Room.mk 1 "Habitación 1" "Con ventilador" false 30000 2)). by left.
Defined.

(** ** The availability request *)

Lemma sent_painted (x : cell) (p : page) (reqs : list request) :
  sent (painted x p reqs) = reqs.
Proof. unfold painted. by destruct (forEach_paint _ _ _). Qed.

Lemma Date_le_Midnight_false (d1 d2 : date) :
  Date_le (Midnight d1) (Midnight d2) = false
  ↔ MakeDay d2 * msPerDay < MakeDay d1 * msPerDay.
Proof. unfold Date_le. simpl. apply Z.leb_gt. Qed.

(** With a valid pair of dates the refresh sends one request: a [GET] of
    the path [/] whose parameters are the ISO timestamps of the two days. *)
Lemma updateAvailability_request
    {S : Type} (fetch : request → S → option response * S)
    (p : page) (s : S) (ci co : date) :
  checkInInput p = Some ci → checkOutInput p = Some co →
  MakeDay ci * msPerDay < MakeDay co * msPerDay →
  sent (updateAvailability fetch p s).1
  = [GET "/" (Query.mk (Some (toISOString ci)) (Some (toISOString co)))].
Proof.
  intros Hci Hco Hlt%Date_le_Midnight_false.
  unfold updateAvailability. rewrite Hci, Hco. simpl.
  rewrite Hlt. destruct (fetch _ s) as [response s1].
  case_match; simpl; [done|]. apply sent_painted.
Qed.

Lemma app_no_route (e : world) (q : Query.t) (s : server) :
  app e (GET "/" q) s = (mkres 404 (Html "Cannot GET /"), s).
Proof. done. Qed.

(** Against the server of [server.js] the request of the refresh matches
    no route: the answer is the 404 page, which is not JSON, and every cell
    shows "Error". *)
Theorem updateAvailability_paints_error
    (e : nat → world) (p : page) (s : nat * server) (ci co : date) :
  rendered p →
  checkInInput p = Some ci → checkOutInput p = Some co →
  MakeDay ci * msPerDay < MakeDay co * msPerDay →
  let o := (updateAvailability (fetch_server e) p s).1 in
  sent o = [GET "/" (Query.mk (Some (toISOString ci)) (Some (toISOString co)))]
  ∧ (updateAvailability (fetch_server e) p s).2 = (S s.1, s.2)
  ∧ ∀ room, room ∈ rooms → cells (after o) !! Room.id room = Some error_cell.
Proof.
  intros Hr Hci Hco Hlt o. split; [by apply updateAvailability_request|].
  apply Date_le_Midnight_false in Hlt. unfold o.
  unfold updateAvailability. rewrite Hci, Hco.
  cbn [new_Date isNaN getTime orb Date_toISOString].
  rewrite Hlt. unfold fetch_server. rewrite app_no_route. simpl.
  assert (rendered (set_cells (cells p) p)) as Hr' by done.
  destruct (painted_ok error_cell (set_cells (cells p) p)
              [GET "/" (Query.mk (Some (toISOString ci)) (Some (toISOString co)))] Hr')
    as (c' & Hp & _ & _ & Hcells).
  rewrite Hp. done.
Qed.

Lemma updateAvailability_paints_error_witness :
  let e := λ _ : nat, mkworld false "2024-05-20 10:00:00" in
  let a := mkargs 1 "Ana" "ana@example.org" "300" "2024-06-01" "2024-06-03" in
  let d1 := (post_reservations (e 0%nat) (body_of a) (mkdb [] 0)).2 in
  let p := set_cells (foldl (λ c room, <[Room.id room := mkcell "" "availability"]> c)
                        ∅ rooms)
             (loaded (Some (mkdate 2024 6 3)) (Some (mkdate 2024 6 5))) in
  reservations d1 = [row_of 1 a "2024-05-20 10:00:00"]
  ∧ cells (after (updateAvailability (fetch_server e) p (1%nat, boot d1)).1) !! 1
    = Some error_cell.
Proof.
  intros e a d1 p. split; [by vm_compute|].
  pose proof (updateAvailability_paints_error e p (1%nat, boot d1)
                (mkdate 2024 6 3) (mkdate 2024 6 5)
                (rendered_foldl _) eq_refl eq_refl ltac:(by vm_compute)) as H.
  destruct H as (_ & _ & H).
  apply (H (Room.mk 1 "Habitación 1" "Con ventilador" false 30000 2)). by left.
Defined.

(** ** The modal and the form *)

Lemma find_room (room : Room.t) :
  room ∈ rooms →
  find (λ r, bool_decide (Room.id r = Room.id room)) rooms = Some room.
Proof.
  intros Hin.
  repeat (apply elem_of_cons in Hin as [->|Hin]; [done|]).
  by apply elem_of_nil in Hin.
Qed.

(** With a valid pair of dates the modal opens for a room of the catalog,
    showing the room and holding its id and the bare values of the two
    date fields; nothing is sent. *)
Lemma openReservationModal_opens
    (formatCOP : Z → string) (room : Room.t) (p : page) (ci co : date) :
  room ∈ rooms →
  checkInInput p = Some ci → checkOutInput p = Some co →
  MakeDay ci * msPerDay < MakeDay co * msPerDay →
  openReservationModal formatCOP (Room.id room) p
  = mkout (mkpage (Some ci) (Some co) (cells p) true
             (Room.name room) (Room.type room) (formatCOP (Room.price room))
             (mkform (Some (Room.id room)) (date_string ci) (date_string co)
                (formName (reservationForm p)) (formEmail (reservationForm p))
                (formPhone (reservationForm p)))
             (alerts p)) [] true.
Proof.
  intros Hin Hci Hco Hlt%Date_le_Midnight_false.
  unfold openReservationModal. rewrite Hci, Hco. simpl new_Date. rewrite Hlt.
  simpl value. rewrite !bool_decide_eq_false_2 by apply date_string_nonempty.
  simpl orb. cbv iota. by rewrite find_room.
Qed.

Lemma submit_request
    {S : Type} (fetch : request → S → option response * S) (reset : form → form)
    (p : page) (s : S) :
  let f := reservationForm p in
  trim (formName f) ≠ "" → trim (formEmail f) ≠ "" → trim (formPhone f) ≠ "" →
  ∃ reqs, sent (submit fetch reset p s).1 = submission f :: reqs.
Proof.
  intros f Hn He Hp. unfold submit. fold f.
  rewrite !bool_decide_eq_false_2 by done. simpl orb. cbv iota.
  fold (submission f). destruct (fetch (submission f) s) as [[res|] s1]; [|by eexists].
  destruct (response_ok res); [|by eexists].
  destruct (response_json res); [|by eexists].
  destruct (updateAvailability _ _ _) as [o s2]. by eexists.
Qed.

(** ** Text order and time order *)

(** The text order is not the order of time for every format of fixed
    length.  Written day first, the stay from 15 to 20 January 2024 is
    selected for the range from 1 to 31 March 2024.  And the mixed-format
    comparison turns round at year 10000, which a date field can hold: its
    value is [10000-01-01] and the timestamp is [+010000-01-01T...]. *)
Lemma overlap_filter_text_order_counterexample :
  let ci := mkdate 2024 1 15 in
  let co := mkdate 2024 1 20 in
  let a := mkdate 2024 3 1 in
  let b := mkdate 2024 3 31 in
  let r := Reservation.mk 1 1 "Ana" "ana@example.org" "300"
             (day_month_year ci) (day_month_year co) "2024-01-02 10:00:00" in
  let late := mkdate 10000 1 1 in
  (day_month_year ci = "15/01/2024" ∧ day_month_year co = "20/01/2024"
   ∧ day_month_year a = "01/03/2024" ∧ day_month_year b = "31/03/2024")
  ∧ String.compare (day_month_year co) (day_month_year a) = Gt
  ∧ (MakeDay co * msPerDay ?= MakeDay a * msPerDay) = Lt
  ∧ ¬ overlaps_in_time ci co a b
  ∧ matches (NotEndedOrNotStarted (day_month_year a) (day_month_year b)) r
  ∧ get_reservations (mkworld false "2024-01-03 10:00:00")
      (Query.mk (Some (day_month_year a)) (Some (day_month_year b))) (mkdb [r] 1)
    = mkres 200 (Json (JRows [r]))
  ∧ date_string late = "10000-01-01"
  ∧ toISOString late = "+010000-01-01T00:00:00.000Z"
  ∧ String.compare (date_string late) (toISOString late) = Gt.
Proof.
  repeat split; try by vm_compute.
  - intros H. apply H. left. by vm_compute.
  - apply matches_compare. by vm_compute.
Qed.

(** C6. The overlap filter compares text byte by byte.  When the stored and
    the queried dates are valid dates of years 1 to 9999, all written
    [yyyy-mm-dd] or all written as the ISO timestamp of midnight, that order
    is the order of the time values and the filter is the chronological
    half-open overlap.  For such dates the page sends ISO timestamps in its
    availability request and posts the bare values of the date fields; a
    stored [checkOut] of the queried check-in day is then strictly below
    the queried text, not equal to it, and the row is not selected. *)
Theorem overlap_filter_text_order :
  (∀ p1 p2 r,
     matches (NotEndedOrNotStarted p1 p2) r
     ↔ String.compare (Reservation.checkOut r) p1 = Gt
       ∧ String.compare (Reservation.checkIn r) p2 = Lt)
  ∧ (∀ d1 d2, valid_date d1 → valid_date d2 →
       String.compare (date_string d1) (date_string d2)
       = (MakeDay d1 * msPerDay ?= MakeDay d2 * msPerDay)
       ∧ String.compare (toISOString d1) (toISOString d2)
         = (MakeDay d1 * msPerDay ?= MakeDay d2 * msPerDay))
  ∧ (∀ ci co a b r,
       valid_date ci → valid_date co → valid_date a → valid_date b →
       (Reservation.checkIn r = date_string ci → Reservation.checkOut r = date_string co →
        matches (NotEndedOrNotStarted (date_string a) (date_string b)) r
        ↔ overlaps_in_time ci co a b)
       ∧ (Reservation.checkIn r = toISOString ci → Reservation.checkOut r = toISOString co →
          matches (NotEndedOrNotStarted (toISOString a) (toISOString b)) r
          ↔ overlaps_in_time ci co a b))
  ∧ (∀ (S : Type) (fetch : request → S → option response * S) (reset : form → form)
       (formatCOP : Z → string) (room : Room.t) p s ci co,
       valid_date ci → valid_date co →
       room ∈ rooms → checkInInput p = Some ci → checkOutInput p = Some co →
       MakeDay ci * msPerDay < MakeDay co * msPerDay →
       sent (updateAvailability fetch p s).1
       = [GET "/" (Query.mk (Some (toISOString ci)) (Some (toISOString co)))]
       ∧ ∀ name email phone,
           trim name ≠ "" → trim email ≠ "" → trim phone ≠ "" →
           let opened := after (openReservationModal formatCOP (Room.id room) p) in
           let filled_in :=
             mkpage (checkInInput opened) (checkOutInput opened) (cells opened)
               (modalShown opened) (modalRoomName opened) (modalRoomType opened)
               (modalRoomPrice opened)
               (mkform (formRoomId (reservationForm opened))
                  (formCheckIn (reservationForm opened))
                  (formCheckOut (reservationForm opened)) name email phone)
               (alerts opened) in
           ∃ reqs, sent (submit fetch reset filled_in s).1
                   = POST "/api/reservations"
                       (Body.mk (Some (Room.id room)) (Some (trim name))
                          (Some (trim email)) (Some (trim phone))
                          (Some (date_string ci)) (Some (date_string co))) :: reqs)
  ∧ (∀ d r p2,
       valid_date d →
       Reservation.checkOut r = date_string d →
       String.compare (Reservation.checkOut r) (toISOString d) = Lt
       ∧ Reservation.checkOut r ≠ toISOString d
       ∧ ¬ matches (NotEndedOrNotStarted (toISOString d) p2) r).
Proof.
  split; [|split; [|split; [|split]]].
  - apply matches_compare.
  - intros d1 d2 H1 H2.
    rewrite date_string_compare, toISOString_compare by done.
    rewrite <- MakeDay_compare by done. by rewrite time_compare.
  - intros ci co a b r Hci Hco Ha Hb. split.
    + by apply (matches_same_format date_string); [apply date_string_compare|..].
    + by apply (matches_same_format toISOString); [apply toISOString_compare|..].
  - intros S fetch reset formatCOP room p s ci co _ _ Hin Hci Hco Hlt.
    split; [by apply updateAvailability_request|].
    intros name email phone Hn He Hp opened filled_in.
    unfold filled_in, opened.
    rewrite (openReservationModal_opens formatCOP room p ci co) by done. simpl.
    by apply (submit_request fetch reset).
  - intros d r p2 Hd Hout.
    assert (String.compare (Reservation.checkOut r) (toISOString d) = Lt) as Hlt.
    { rewrite Hout, toISOString_valid by done. by apply string_compare_prefix. }
    split; [done|]. split.
    + intros Heq. rewrite Heq, string_compare_refl in Hlt. done.
    + rewrite matches_compare, Hlt. by intros [? _].
Qed.

Lemma overlap_filter_text_order_witness :
  let r := Reservation.mk 1 1 "Ana" "ana@example.org" "300" "2024-06-01" "2024-06-03" "t" in
  (matches (NotEndedOrNotStarted "2024-06-02" "2024-06-04") r
   ↔ overlaps_in_time (mkdate 2024 6 1) (mkdate 2024 6 3) (mkdate 2024 6 2) (mkdate 2024 6 4))
  ∧ String.compare "2024-06-03" "2024-06-03T00:00:00.000Z" = Lt
  ∧ String.compare "2024-06-03" "2024-06-05" = (19877 * msPerDay ?= 19879 * msPerDay)
  ∧ sent (updateAvailability (fetch_server (λ _, mkworld false "t"))
            (loaded (Some (mkdate 2024 6 3)) (Some (mkdate 2024 6 5)))
            (0%nat, boot (mkdb [] 0))).1
    = [GET "/" (Query.mk (Some "2024-06-03T00:00:00.000Z") (Some "2024-06-05T00:00:00.000Z"))].
Proof.
  intros r.
  destruct overlap_filter_text_order as (_ & H2 & H3 & H4 & H5).
  split; [|split; [|split]].
  - apply (proj1 (H3 (mkdate 2024 6 1) (mkdate 2024 6 3) (mkdate 2024 6 2) (mkdate 2024 6 4) r
                    ltac:(by vm_compute) ltac:(by vm_compute)
                    ltac:(by vm_compute) ltac:(by vm_compute)) eq_refl eq_refl).
  - apply (proj1 (H5 (mkdate 2024 6 3) r "2024-06-05" ltac:(by vm_compute) eq_refl)).
  - apply (proj1 (H2 (mkdate 2024 6 3) (mkdate 2024 6 5)
                    ltac:(by vm_compute) ltac:(by vm_compute))).
  - apply (proj1 (H4 _ (fetch_server (λ _, mkworld false "t")) (λ f, f) (λ _, "")
                    (Room.mk 1 "Habitación 1" "Con ventilador" false 30000 2)
                    (loaded (Some (mkdate 2024 6 3)) (Some (mkdate 2024 6 5)))
                    (0%nat, boot (mkdb [] 0)) (mkdate 2024 6 3) (mkdate 2024 6 5)
                    ltac:(by vm_compute) ltac:(by vm_compute)
                    ltac:(by left) eq_refl eq_refl ltac:(by vm_compute))).
Defined.

(** * Further properties of the server *)

(** A failure of the engine during the query is answered 500 with the
    payload "Database error", whatever the parameters; and no [GET], on
    any path and whether the engine fails or not, changes the server. *)
Theorem get_reservations_engine_error (e : world) (q : Query.t) (d : database) :
  (err e = true →
   get_reservations e q d = mkres 500 (Json (JError "Database error")))
  ∧ (∀ e' q' path s, (app e' (GET path q') s).2 = s).
Proof.
  split.
  - intros He. unfold get_reservations, db_all. by rewrite He.
  - intros e' q' path s. simpl.
    destruct (route "/api/rooms" path); [done|].
    by destruct (route "/api/reservations" path).
Qed.

Lemma get_reservations_engine_error_witness :
  get_reservations (mkworld true "t") (Query.mk (Some "2024-06-01") (Some "2024-06-03"))
    (mkdb [] 0)
  = mkres 500 (Json (JError "Database error"))
  ∧ (app (mkworld false "t") (GET "/api/reservations" (Query.mk None None))
       (boot (mkdb [] 0))).2 = boot (mkdb [] 0).
Proof.
  pose proof (get_reservations_engine_error (mkworld true "t")
                (Query.mk (Some "2024-06-01") (Some "2024-06-03")) (mkdb [] 0)) as [H1 H2].
  split; [exact (H1 eq_refl)|apply H2].
Defined.

(** Widening the requested range never loses a row: every row returned
    for [a, b) is returned for a range that starts no later and ends no
    earlier. *)
Theorem get_reservations_widen (e : world) (d : database) (a b a' b' : string) :
  err e = false → a ≠ "" → b ≠ "" → a' ≠ "" → b' ≠ "" →
  (a' ≤ a)%string → (b ≤ b')%string →
  ∃ rows rows',
    get_reservations e (Query.mk (Some a) (Some b)) d = mkres 200 (Json (JRows rows))
    ∧ get_reservations e (Query.mk (Some a') (Some b')) d = mkres 200 (Json (JRows rows'))
    ∧ rows ⊆ rows'.
Proof.
  intros He Ha Hb Ha' Hb' Hle1 Hle2.
  rewrite !get_reservations_range by done. unfold db_all. rewrite He.
  eexists _, _. split; [done|]. split; [done|].
  intros r' (r & -> & [Hm Hin]%list_elem_of_filter)%list_elem_of_fmap.
  apply list_elem_of_fmap_2. apply list_elem_of_filter. split; [|done].
  simpl in *. unfold str_ge in *. intros [H|H]; apply Hm.
  - left. by trans a'.
  - right. by trans b'.
Qed.

Lemma get_reservations_widen_witness :
  let d := mkdb [ Reservation.mk 1 1 "Ana" "ana@example.org" "300" "2024-06-01" "2024-06-03" "t";
                  Reservation.mk 2 1 "Luz" "luz@example.org" "301" "2024-06-04" "2024-06-06" "t" ] 2 in
  ∃ rows rows',
    get_reservations (mkworld false "t") (Query.mk (Some "2024-06-02") (Some "2024-06-03")) d
    = mkres 200 (Json (JRows rows))
    ∧ get_reservations (mkworld false "t") (Query.mk (Some "2024-06-01") (Some "2024-06-05")) d
      = mkres 200 (Json (JRows rows'))
    ∧ rows ⊆ rows'.
Proof.
  intros d.
  apply (get_reservations_widen (mkworld false "t") d "2024-06-02" "2024-06-03"
           "2024-06-01" "2024-06-05");
    [reflexivity | discriminate | discriminate | discriminate | discriminate
    | by vm_compute | by vm_compute].
Defined.

(** The store is written by one thing only: a [POST] on a path that
    Express routes to [/api/reservations] (in any case of letters, with or
    without one closing slash), with six truthy values, while the engine
    accepts the insert; it is answered 200 with the new key as a JS number.
    The store is then the old table followed by one row, which holds the
    new key, the six values and the time of the insert.  Any other request,
    and any POST answered 400, 500 or 404, leaves the table and the counter
    as they were. *)
Theorem only_successful_post_writes (e : world) (req : request) (s : server) :
  db (app e req s).2 ≠ db s →
  ∃ path roomId name email phone checkIn checkOut,
    req = POST path (Body.mk (Some roomId) (Some name) (Some email) (Some phone)
                       (Some checkIn) (Some checkOut))
    ∧ route "/api/reservations" path = true
    ∧ (roomId ≠ 0 ∧ name ≠ "" ∧ email ≠ "" ∧ phone ≠ "" ∧ checkIn ≠ "" ∧ checkOut ≠ "")
    ∧ err e = false
    ∧ last_rowid (db s) < MAX_ROWID
    ∧ (app e req s).1 = mkres 200 (Json (JId (to_number (last_rowid (db s) + 1))))
    ∧ db (app e req s).2
      = mkdb (reservations (db s)
              ++ [Reservation.mk (last_rowid (db s) + 1) roomId name email phone
                    checkIn checkOut (now e)])
          (last_rowid (db s) + 1).
Proof.
  destruct req as [path q|path b]; simpl.
  { destruct (route "/api/rooms" path); [done|].
    by destruct (route "/api/reservations" path). }
  destruct (route "/api/reservations" path) eqn:Hpath; [|done].
  unfold post_reservations.
  destruct (required b) as [a|] eqn:Hreq; [|done].
  destruct (stmt_run e a (db s)) as [[i d1]|] eqn:Hrun; [|done].
  apply required_inv in Hreq as [-> Ha].
  apply stmt_run_inv in Hrun as (He & Hfull & -> & ->). simpl. intros _.
  by exists path, (a_roomId a), (a_name a), (a_email a), (a_phone a),
    (a_checkIn a), (a_checkOut a).
Qed.

Lemma only_successful_post_writes_witness :
  let e := mkworld false "2024-05-20 10:00:00" in
  let req := POST "/API/Reservations/"
               (Body.mk (Some 1) (Some "Ana") (Some "ana@example.org") (Some "300")
                  (Some "2024-06-01") (Some "2024-06-03")) in
  (app e req (boot (mkdb [] 0))).1 = mkres 200 (Json (JId 1))
  ∧ db (app e req (boot (mkdb [] 0))).2
    = mkdb [Reservation.mk 1 1 "Ana" "ana@example.org" "300" "2024-06-01" "2024-06-03"
              "2024-05-20 10:00:00"] 1.
Proof.
  intros e req.
  destruct (only_successful_post_writes e req (boot (mkdb [] 0)) ltac:(by vm_compute))
    as (path & roomId & name & email & phone & checkIn & checkOut
        & Hreq & _ & _ & _ & _ & Hres & Hdb).
  injection Hreq as <- <- <- <- <- <- <-.
  split; [exact Hres|exact Hdb].
Defined.

(** Rows are never updated or deleted: after any run of requests the table
    starts with the rows it held, in their order; and when the keys of the
    table were pairwise distinct they still are. *)
Theorem table_append_only (reqs : list (world * request)) (s : server) :
  reservations (db s) `prefix_of` reservations (db (serve reqs s).2)
  ∧ (NoDup (ids (db s)) → NoDup (ids (db (serve reqs s).2))).
Proof.
  destruct (serve_rows reqs s) as (new & _ & Hrows & _ & Hgt & Hsorted).
  split; [rewrite Hrows; by eexists|].
  intros Hnd. unfold ids. rewrite Hrows, fmap_app.
  apply NoDup_app. split; [done|]. split.
  - intros j Hj (r & -> & Hr)%list_elem_of_fmap.
    pose proof (ids_le_last_rowid (db s)) as Hle.
    rewrite Forall_forall in Hle. rewrite Forall_forall in Hgt.
    specialize (Hle _ Hj). specialize (Hgt r Hr). simpl in *. lia.
  - clear -Hsorted. induction Hsorted as [|j l _ IH Hj]; [constructor|].
    constructor; [|done]. intros Hin. rewrite Forall_forall in Hj.
    specialize (Hj j Hin). lia.
Qed.

Lemma table_append_only_witness :
  let e := mkworld false "2024-05-20 10:00:00" in
  let s := boot (mkdb [ Reservation.mk 4 2 "Eva" "eva@example.org" "302"
                          "2024-06-05" "2024-06-07" "t" ] 7) in
  let reqs := [ (e, POST "/api/reservations"
                      (body_of (mkargs 1 "Ana" "ana@example.org" "300" "2024-06-01" "2024-06-03")));
                (e, GET "/api/reservations" (Query.mk None None)) ] in
  NoDup (ids (db (serve reqs s).2)).
Proof.
  intros e s reqs.
  apply (proj2 (table_append_only reqs s)).
  vm_compute. repeat constructor. by intros ?%elem_of_nil.
Defined.

Lemma post_reservations_step (e : world) (a : insert_args) (d : database) :
  filled a → err e = false → last_rowid d < MAX_ROWID →
  post_reservations e (body_of a) d
  = (mkres 200 (Json (JId (to_number (last_rowid d + 1)))),
     mkdb (reservations d ++ [row_of (last_rowid d + 1) a (now e)]) (last_rowid d + 1))
  ∧ last_rowid (post_reservations e (body_of a) d).2 = last_rowid d + 1.
Proof.
  intros Ha He Hlt.
  assert (post_reservations e (body_of a) d
          = (mkres 200 (Json (JId (to_number (last_rowid d + 1)))),
             mkdb (reservations d ++ [row_of (last_rowid d + 1) a (now e)])
               (last_rowid d + 1))) as Heq.
  { unfold post_reservations. rewrite required_body_of by done.
    by rewrite stmt_run_ok. }
  split; [done|]. rewrite Heq. apply last_rowid_insert.
Qed.

(** Insert, then list: after a successful POST the listing without
    parameters is the previous table followed by the new row, which holds
    the new key, the six posted values and the time of the insert, each row
    as JavaScript reads it; the rows are the stored ones themselves when
    their integers are at most [2^53]. *)
Theorem post_then_list
    (e1 e2 : world) (roomId : Z) (name email phone checkIn checkOut : string)
    (d : database) :
  roomId ≠ 0 → name ≠ "" → email ≠ "" → phone ≠ "" → checkIn ≠ "" → checkOut ≠ "" →
  err e1 = false → last_rowid d < MAX_ROWID → err e2 = false →
  let b := Body.mk (Some roomId) (Some name) (Some email) (Some phone)
             (Some checkIn) (Some checkOut) in
  let r := Reservation.mk (last_rowid d + 1) roomId name email phone checkIn checkOut
             (now e1) in
  get_reservations e2 (Query.mk None None) (post_reservations e1 b d).2
  = mkres 200 (Json (JRows ((js_row <$> reservations d)
                            ++ [Reservation.mk (to_number (last_rowid d + 1))
                                  (to_number roomId) name email phone checkIn checkOut
                                  (now e1)])))
  ∧ (Forall (λ r, Z.abs (Reservation.id r) ≤ 2 ^ 53
                  ∧ Z.abs (Reservation.roomId r) ≤ 2 ^ 53) (reservations d ++ [r]) →
     get_reservations e2 (Query.mk None None) (post_reservations e1 b d).2
     = mkres 200 (Json (JRows (reservations d ++ [r])))).
Proof.
  intros Hroom Hname Hemail Hphone Hin Hout He1 Hlt He2 b r.
  pose (a := mkargs roomId name email phone checkIn checkOut).
  assert (filled a) as Ha by done.
  assert (get_reservations e2 (Query.mk None None) (post_reservations e1 b d).2
          = mkres 200 (Json (JRows (js_row <$> (reservations d ++ [r]))))) as Hget.
  { change b with (body_of a). rewrite (post_reservations_ok e1 a d) by done.
    unfold get_reservations, db_all. simpl. rewrite He2. by rewrite filter_NoWhere. }
  split.
  - rewrite Hget. by rewrite fmap_app.
  - intros Hsmall. by rewrite Hget, js_rows_small.
Qed.

Lemma post_then_list_witness :
  let e := mkworld false "2024-05-20 10:00:00" in
  get_reservations e (Query.mk None None)
    (post_reservations e
       (Body.mk (Some 1) (Some "Ana") (Some "ana@example.org") (Some "300")
          (Some "2024-06-01") (Some "2024-06-03")) (mkdb [] 0)).2
  = mkres 200 (Json (JRows
      [Reservation.mk 1 1 "Ana" "ana@example.org" "300" "2024-06-01" "2024-06-03"
         "2024-05-20 10:00:00"])).
Proof.
  intros e.
  apply (proj1 (post_then_list e e 1 "Ana" "ana@example.org" "300" "2024-06-01" "2024-06-03"
                  (mkdb [] 0)
                  ltac:(done) ltac:(done) ltac:(done) ltac:(done) ltac:(done) ltac:(done)
                  eq_refl ltac:(by vm_compute) eq_refl)).
Defined.

(** ** Bare dates in the table, ISO timestamps in the query *)

Lemma date_string_toISOString_compare (d1 d2 : date) :
  valid_date d1 → valid_date d2 →
  String.compare (date_string d1) (toISOString d2)
  = then_compare (date_compare d1 d2) Lt.
Proof.
  intros H1 H2. rewrite <- (string_app_nil_r (date_string d1)).
  rewrite toISOString_valid by done. by rewrite date_string_compare_app.
Qed.

(** The rows are written by the form (bare [yyyy-mm-dd]) and queried by
    the refresh (ISO timestamps).  On such a pair the filter keeps a stay
    [ci, co) for the window [a, b) exactly when [a < co] and [ci <= b] on
    the time values: the end of the window is inclusive, so a stay that
    begins on the requested check-out day is returned although it does not
    overlap the window. *)
Theorem matches_bare_against_iso (ci co a b : date) (r : Reservation.t) :
  valid_date ci → valid_date co → valid_date a → valid_date b →
  Reservation.checkIn r = date_string ci → Reservation.checkOut r = date_string co →
  (matches (NotEndedOrNotStarted (toISOString a) (toISOString b)) r
   ↔ MakeDay a * msPerDay < MakeDay co * msPerDay
     ∧ MakeDay ci * msPerDay ≤ MakeDay b * msPerDay)
  ∧ (ci = b → MakeDay a * msPerDay < MakeDay co * msPerDay →
     matches (NotEndedOrNotStarted (toISOString a) (toISOString b)) r
     ∧ ¬ overlaps_in_time ci co a b).
Proof.
  intros Hci Hco Ha Hb Hin Hout.
  assert (matches (NotEndedOrNotStarted (toISOString a) (toISOString b)) r
          ↔ MakeDay a * msPerDay < MakeDay co * msPerDay
            ∧ MakeDay ci * msPerDay ≤ MakeDay b * msPerDay) as Hiff.
  { rewrite matches_compare, Hin, Hout.
    rewrite !date_string_toISOString_compare by done.
    rewrite <- !MakeDay_compare by done.
    destruct (Z.compare_spec (MakeDay co) (MakeDay a)),
      (Z.compare_spec (MakeDay ci) (MakeDay b)); simpl; unfold msPerDay;
      (split; [intros [? ?]; try done; lia | intros [? ?]; try done; lia]). }
  split; [done|]. intros -> Hlt. split.
  - apply Hiff. split; [done|lia].
  - unfold overlaps_in_time. intros Hn. apply Hn. right. lia.
Qed.

Lemma matches_bare_against_iso_witness :
  let r := Reservation.mk 1 1 "Ana" "ana@example.org" "300" "2024-06-05" "2024-06-07" "t" in
  matches (NotEndedOrNotStarted "2024-06-03T00:00:00.000Z" "2024-06-05T00:00:00.000Z") r
  ∧ ¬ overlaps_in_time (mkdate 2024 6 5) (mkdate 2024 6 7) (mkdate 2024 6 3) (mkdate 2024 6 5).
Proof.
  intros r.
  apply (proj2 (matches_bare_against_iso (mkdate 2024 6 5) (mkdate 2024 6 7)
                  (mkdate 2024 6 3) (mkdate 2024 6 5) r
                  ltac:(by vm_compute) ltac:(by vm_compute)
                  ltac:(by vm_compute) ltac:(by vm_compute) eq_refl eq_refl)
           eq_refl ltac:(by vm_compute)).
Defined.

(** * Further properties of the rooms page *)

(** ** The availability refresh *)

Lemma updateAvailability_empty_field_eq
    {S : Type} (fetch : request → S → option response * S) (p : page) (s : S) :
  checkInInput p = None ∨ checkOutInput p = None →
  updateAvailability fetch p s = (mkout p [] true, s).
Proof.
  intros H. unfold updateAvailability.
  destruct H as [-> | ->]; simpl; [done|]. by rewrite orb_true_r.
Qed.

(** With a date field empty the refresh returns at once: the page is as it
    was and nothing is sent. *)
Theorem updateAvailability_empty_field
    {S : Type} (fetch : request → S → option response * S) (p : page) (s : S) :
  checkInInput p = None ∨ checkOutInput p = None →
  updateAvailability fetch p s = (mkout p [] true, s).
Proof.
  intros H. unfold updateAvailability.
  destruct H as [-> | ->]; simpl; [done|]. by rewrite orb_true_r.
Qed.

Lemma updateAvailability_empty_field_witness :
  let p := loaded None (Some (mkdate 2024 6 5)) in
  updateAvailability (fetch_server (λ _, mkworld false "t")) p (0%nat, boot (mkdb [] 0))
  = (mkout p [] true, (0%nat, boot (mkdb [] 0))).
Proof.
  intros p. apply (updateAvailability_empty_field (fetch_server _) p). by left.
Defined.

(** The loop over the rooms only rewrites cells that exist: it adds no
    cell, removes none, and leaves the cells of other ids alone, whether
    it ends normally or not. *)
Lemma forEach_paint_frame (f : Room.t → option cell) (rs : list Room.t) (c : gmap Z cell) :
  dom (forEach_paint f rs c).1 = dom c
  ∧ ∀ k, k ∉ Room.id <$> rs → (forEach_paint f rs c).1 !! k = c !! k.
Proof.
  revert c. induction rs as [|room rs IH]; intros c; [done|]. simpl.
  destruct (f room) as [x|]; [|done].
  destruct (c !! Room.id room) as [y|] eqn:Hy; [|done].
  destruct (IH (<[Room.id room := x]> c)) as [Hdom Hother]. split.
  - rewrite Hdom, dom_insert_L.
    assert (Room.id room ∈ dom c) by (apply elem_of_dom; by eexists). set_solver.
  - intros k [Hk1 Hk2]%not_elem_of_cons.
    rewrite Hother by done. by rewrite lookup_insert_ne.
Qed.

Lemma painted_frame (x : cell) (p : page) (reqs : list request) :
  let o := painted x p reqs in
  sent o = reqs
  ∧ after o = set_cells (cells (after o)) p
  ∧ dom (cells (after o)) = dom (cells p)
  ∧ ∀ k, k ∉ Room.id <$> rooms → cells (after o) !! k = cells p !! k.
Proof.
  unfold painted.
  pose proof (forEach_paint_frame (λ _, Some x) rooms (cells p)) as [Hdom Ho].
  by destruct (forEach_paint _ rooms (cells p)) as [c ok].
Qed.

Lemma updateAvailability_cells_only
    {S : Type} (fetch : request → S → option response * S) (p : page) (s : S) :
  let o := (updateAvailability fetch p s).1 in
  after o = set_cells (cells (after o)) p
  ∧ dom (cells (after o)) = dom (cells p)
  ∧ (∀ k, k ∉ Room.id <$> rooms → cells (after o) !! k = cells p !! k)
  ∧ (length (sent o) ≤ 1)%nat.
Proof.
  assert (∀ reqs : list request, (length reqs ≤ 1)%nat →
            let o := mkout p reqs true in
            after o = set_cells (cells (after o)) p
            ∧ dom (cells (after o)) = dom (cells p)
            ∧ (∀ k, k ∉ Room.id <$> rooms → cells (after o) !! k = cells p !! k)
            ∧ (length (sent o) ≤ 1)%nat) as Hsame.
  { intros reqs Hlen. simpl. by destruct p. }
  assert (∀ x (reqs : list request), (length reqs ≤ 1)%nat →
            let o := painted x p reqs in
            after o = set_cells (cells (after o)) p
            ∧ dom (cells (after o)) = dom (cells p)
            ∧ (∀ k, k ∉ Room.id <$> rooms → cells (after o) !! k = cells p !! k)
            ∧ (length (sent o) ≤ 1)%nat) as Hpaint.
  { intros x reqs Hlen o.
    destruct (painted_frame x p reqs) as (Hs & Ha & Hd & Ho).
    fold o in Hs, Ha, Hd, Ho. by rewrite Hs. }
  unfold updateAvailability.
  set (checkInDate := new_Date (checkInInput p)).
  set (checkOutDate := new_Date (checkOutInput p)).
  destruct (isNaN _ || isNaN _); [apply Hsame; simpl; lia|].
  destruct (Date_le _ _); [apply Hpaint; simpl; lia|].
  destruct (Date_toISOString checkInDate) as [ci|],
    (Date_toISOString checkOutDate) as [co|];
    try (apply Hpaint; simpl; lia).
  destruct (fetch _ s) as [response s1].
  set (tried := match response ≫= response_json with
                | Some reservations => forEach_paint (availability_cell reservations) rooms (cells p)
                | None => (cells p, false)
                end).
  assert (dom tried.1 = dom (cells p)
          ∧ ∀ k, k ∉ Room.id <$> rooms → tried.1 !! k = cells p !! k) as [Hd1 Ho1].
  { unfold tried. destruct (response ≫= response_json) as [j|]; [|done].
    apply forEach_paint_frame. }
  destruct tried.2; simpl.
  { repeat split; [done..|lia]. }
  destruct (painted_frame error_cell (set_cells tried.1 p)
              [GET "/" (Query.mk (Some ci) (Some co))]) as (Hs & Ha & Hd & Ho).
  rewrite Hs. simpl in *. split; [by rewrite Ha at 1|]. split; [by rewrite Hd|].
  split; [|lia]. intros k Hk. by rewrite Ho, Ho1.
Qed.

Lemma updateAvailability_valid
    {S : Type} (fetch : request → S → option response * S)
    (p : page) (s : S) (ci co : date) :
  checkInInput p = Some ci → checkOutInput p = Some co →
  MakeDay ci * msPerDay < MakeDay co * msPerDay →
  updateAvailability fetch p s
  = let req := GET "/" (Query.mk (Some (toISOString ci)) (Some (toISOString co))) in
    let '(response, s') := fetch req s in
    let tried :=
      match response ≫= response_json with
      | None => (cells p, false)
      | Some reservations =>
          forEach_paint (availability_cell reservations) rooms (cells p)
      end in
    if tried.2 then (mkout (set_cells tried.1 p) [req] true, s')
    else (painted error_cell (set_cells tried.1 p) [req], s').
Proof.
  intros Hci Hco Hlt%Date_le_Midnight_false.
  unfold updateAvailability. rewrite Hci, Hco.
  cbn [new_Date isNaN getTime orb Date_toISOString]. by rewrite Hlt.
Qed.

Lemma availability_cell_rows (rows : list Reservation.t) (room : Room.t) :
  availability_cell (JRows rows) room
  = Some (if bool_decide (Exists (λ res, Reservation.roomId res = Room.id room) rows)
          then unavailable_cell else available_cell).
Proof. unfold availability_cell. simpl. by case_bool_decide. Qed.

(** When the network answers the request of the refresh with a JSON array
    of reservations, each room is shown "No disponible" if one of them
    names the room, and "Disponible" if none does; the request is the only
    one sent. *)
Theorem updateAvailability_paints_conflicts
    {S : Type} (fetch : request → S → option response * S)
    (p : page) (s s' : S) (ci co : date) (res : response) (rows : list Reservation.t) :
  rendered p →
  checkInInput p = Some ci → checkOutInput p = Some co →
  MakeDay ci * msPerDay < MakeDay co * msPerDay →
  fetch (GET "/" (Query.mk (Some (toISOString ci)) (Some (toISOString co)))) s
  = (Some res, s') →
  body res = Json (JRows rows) →
  let o := (updateAvailability fetch p s).1 in
  normal o = true
  ∧ sent o = [GET "/" (Query.mk (Some (toISOString ci)) (Some (toISOString co)))]
  ∧ (updateAvailability fetch p s).2 = s'
  ∧ ∀ room, room ∈ rooms →
      cells (after o) !! Room.id room
      = Some (if bool_decide (Exists (λ r, Reservation.roomId r = Room.id room) rows)
              then unavailable_cell else available_cell).
Proof.
  intros Hr Hci Hco Hlt Hfetch Hbody o. unfold o.
  rewrite (updateAvailability_valid fetch p s ci co) by done.
  cbv zeta. rewrite Hfetch.
  change (Some res ≫= response_json) with (response_json res).
  unfold response_json. rewrite Hbody.
  destruct (forEach_paint_ok (availability_cell (JRows rows)) rooms (cells p))
    as (c1 & -> & _ & _ & Hpaint).
  { intros room Hin. split; [|by apply Hr]. rewrite availability_cell_rows. by eexists. }
  simpl. repeat split. intros room Hin.
  destruct (Hpaint room Hin) as (room1 & _ & Hid & ->).
  rewrite availability_cell_rows. by rewrite Hid.
Qed.

Lemma updateAvailability_paints_conflicts_witness :
  let rows := [ Reservation.mk 1 3 "Ana" "ana@example.org" "300" "2024-06-01" "2024-06-04" "t" ] in
  let fetch := λ (_ : request) (_ : unit), (Some (mkres 200 (Json (JRows rows))), ()) in
  let p := set_cells (foldl (λ c room, <[Room.id room := mkcell "" "availability"]> c)
                        ∅ rooms)
             (loaded (Some (mkdate 2024 6 3)) (Some (mkdate 2024 6 5))) in
  cells (after (updateAvailability fetch p ()).1) !! 3 = Some unavailable_cell
  ∧ cells (after (updateAvailability fetch p ()).1) !! 4 = Some available_cell.
Proof.
  intros rows fetch p.
  pose proof (updateAvailability_paints_conflicts fetch p () () (mkdate 2024 6 3)
                (mkdate 2024 6 5) (mkres 200 (Json (JRows rows))) rows
                (rendered_foldl _) eq_refl eq_refl ltac:(by vm_compute) eq_refl eq_refl)
    as (_ & _ & _ & H).
  split.
  - apply (H (Room.mk 3 "Habitación 3" "Con ventilador" false 30000 2)).
    by do 2 right; left.
  - apply (H (Room.mk 4 "Habitación 4" "Con ventilador" false 30000 2)).
    by do 3 right; left.
Defined.

(** When the request of the refresh gets no response, a response that is
    not JSON, or a JSON object (such as the [{error}] of a 500), every
    room is shown "Error". *)
Theorem updateAvailability_failure
    {S : Type} (fetch : request → S → option response * S)
    (p : page) (s s' : S) (ci co : date) (response : option response) :
  rendered p →
  checkInInput p = Some ci → checkOutInput p = Some co →
  MakeDay ci * msPerDay < MakeDay co * msPerDay →
  fetch (GET "/" (Query.mk (Some (toISOString ci)) (Some (toISOString co)))) s
  = (response, s') →
  (response = None
   ∨ (∃ res text, response = Some res ∧ body res = Html text)
   ∨ (∃ res i, response = Some res ∧ body res = Json (JId i))
   ∨ (∃ res msg, response = Some res ∧ body res = Json (JError msg))) →
  let o := (updateAvailability fetch p s).1 in
  normal o = true
  ∧ ∀ room, room ∈ rooms → cells (after o) !! Room.id room = Some error_cell.
Proof.
  intros Hr Hci Hco Hlt Hfetch Hres o. unfold o.
  rewrite (updateAvailability_valid fetch p s ci co) by done.
  cbv zeta. rewrite Hfetch.
  assert (match response ≫= response_json with
          | Some reservations =>
              forEach_paint (availability_cell reservations) rooms (cells p)
          | None => (cells p, false)
          end = (cells p, false)) as ->.
  { destruct Hres as [->|[(res & t & -> & Hb)|[(res & i & -> & Hb)|(res & m & -> & Hb)]]];
      simpl; unfold response_json; try rewrite Hb; done. }
  simpl.
  assert (rendered (set_cells (cells p) p)) as Hr' by done.
  destruct (painted_ok error_cell (set_cells (cells p) p)
              [GET "/" (Query.mk (Some (toISOString ci)) (Some (toISOString co)))] Hr')
    as (c1 & -> & _ & _ & Hcells).
  done.
Qed.

Lemma updateAvailability_failure_witness :
  let fetch := λ (_ : request) (_ : unit),
                 (Some (mkres 500 (Json (JError "Database error"))), ()) in
  let p := set_cells (foldl (λ c room, <[Room.id room := mkcell "" "availability"]> c)
                        ∅ rooms)
             (loaded (Some (mkdate 2024 6 3)) (Some (mkdate 2024 6 5))) in
  cells (after (updateAvailability fetch p ()).1) !! 1 = Some error_cell.
Proof.
  intros fetch p.
  pose proof (updateAvailability_failure fetch p () () (mkdate 2024 6 3)
                (mkdate 2024 6 5) (Some (mkres 500 (Json (JError "Database error"))))
                (rendered_foldl _) eq_refl eq_refl ltac:(by vm_compute) eq_refl
                ltac:(right; right; right; by eexists _, _)) as [_ H].
  apply (H (Room.mk 1 "Habitación 1" "Con ventilador" false 30000 2)). by left.
Defined.

(** ** The reservation modal *)

Lemma find_room_unknown (roomId : Z) :
  roomId ∉ Room.id <$> rooms →
  find (λ r, bool_decide (Room.id r = roomId)) rooms = None.
Proof.
  intros Hn. simpl.
  repeat (rewrite bool_decide_eq_false_2;
          [|intros <-; apply Hn; simpl; set_solver]).
  done.
Qed.

Lemma openReservationModal_empty_field_eq
    (formatCOP : Z → string) (roomId : Z) (p : page) :
  checkInInput p = None ∨ checkOutInput p = None →
  openReservationModal formatCOP roomId p = mkout (alert select_dates p) [] true.
Proof.
  intros H. unfold openReservationModal.
  destruct H as [-> | ->]; simpl; [done|]. by rewrite orb_true_r.
Qed.

(** With a date field empty the modal does not open: the alert asking for
    valid dates is shown, the form is untouched and nothing is sent. *)
Theorem openReservationModal_empty_field
    (formatCOP : Z → string) (roomId : Z) (p : page) :
  checkInInput p = None ∨ checkOutInput p = None →
  openReservationModal formatCOP roomId p = mkout (alert select_dates p) [] true.
Proof.
  intros H. unfold openReservationModal.
  destruct H as [-> | ->]; simpl; [done|]. by rewrite orb_true_r.
Qed.

Lemma openReservationModal_empty_field_witness :
  let p := loaded (Some (mkdate 2024 6 3)) None in
  openReservationModal (λ _, "") 1 p = mkout (alert select_dates p) [] true.
Proof.
  intros p. apply (openReservationModal_empty_field (λ _, "") 1 p). by right.
Defined.

(** With a valid pair of dates: for a room of the catalog the modal opens,
    shows the room's name, type and formatted price, and its form holds the
    room id and the two dates as the date fields write them, the texts
    already typed being kept; for an id that is no room of the catalog the
    handler throws and the page is as it was.  Nothing is sent, no alert
    is shown. *)
Theorem openReservationModal_prefills
    (formatCOP : Z → string) (p : page) (ci co : date) :
  checkInInput p = Some ci → checkOutInput p = Some co →
  MakeDay ci * msPerDay < MakeDay co * msPerDay →
  (∀ room, room ∈ rooms →
     openReservationModal formatCOP (Room.id room) p
     = mkout (mkpage (Some ci) (Some co) (cells p) true
                (Room.name room) (Room.type room) (formatCOP (Room.price room))
                (mkform (Some (Room.id room)) (date_string ci) (date_string co)
                   (formName (reservationForm p)) (formEmail (reservationForm p))
                   (formPhone (reservationForm p)))
                (alerts p)) [] true)
  ∧ (∀ roomId, roomId ∉ Room.id <$> rooms →
       openReservationModal formatCOP roomId p = mkout p [] false).
Proof.
  intros Hci Hco Hlt. split.
  - intros room Hin. by apply openReservationModal_opens.
  - intros roomId Hn. apply Date_le_Midnight_false in Hlt.
    unfold openReservationModal. rewrite Hci, Hco. simpl new_Date. rewrite Hlt.
    simpl value. rewrite !bool_decide_eq_false_2 by apply date_string_nonempty.
    simpl orb. cbv iota. by rewrite find_room_unknown.
Qed.

Lemma openReservationModal_prefills_witness :
  let p := loaded (Some (mkdate 2024 6 3)) (Some (mkdate 2024 6 5)) in
  reservationForm (after (openReservationModal (λ _, "$") 7 p))
  = mkform (Some 7) "2024-06-03" "2024-06-05" "" "" ""
  ∧ openReservationModal (λ _, "$") 13 p = mkout p [] false.
Proof.
  intros p.
  destruct (openReservationModal_prefills (λ _, "$") p (mkdate 2024 6 3) (mkdate 2024 6 5)
              eq_refl eq_refl ltac:(by vm_compute)) as [H1 H2].
  split.
  - exact (f_equal (λ o, reservationForm (after o))
             (H1 (Room.mk 7 "Habitación 7" "Con aire acondicionado" true 60000 2)
                ltac:(by do 6 right; left))).
  - apply H2. simpl. set_solver.
Defined.

(** ** Submitting the form *)

Lemma trim_blank (s : string) : blank s = true → trim s = "".
Proof.
  intros Hs. unfold trim.
  assert (trimStart s = "") as ->; [|done].
  unfold trimStart. induction s as [|c s IH]; [done|].
  simpl in *. apply andb_true_iff in Hs as [-> Hs]. by apply IH.
Qed.

(** A submission with the name, the e-mail or the phone empty or made of
    spaces, tabs or line breaks only is refused on the page: the alert
    asking to complete the fields is shown, the modal and the form stay as
    they are, and nothing is sent. *)
Theorem submit_blank_field
    {S : Type} (fetch : request → S → option response * S) (reset : form → form)
    (p : page) (s : S) :
  blank (formName (reservationForm p)) = true
  ∨ blank (formEmail (reservationForm p)) = true
  ∨ blank (formPhone (reservationForm p)) = true →
  submit fetch reset p s = (mkout (alert complete_fields p) [] true, s).
Proof.
  intros H. unfold submit.
  destruct H as [H|[H|H]]; apply trim_blank in H; rewrite H; simpl;
    by rewrite ?orb_true_r.
Qed.

Lemma submit_blank_field_witness :
  let p := type_in "Ana" "   " "300"
             (after (openReservationModal (λ _, "$") 7
                       (loaded (Some (mkdate 2024 6 3)) (Some (mkdate 2024 6 5))))) in
  submit (fetch_server (λ _, mkworld false "t")) (λ f, f) p (0%nat, boot (mkdb [] 0))
  = (mkout (alert complete_fields p) [] true, (0%nat, boot (mkdb [] 0))).
Proof.
  intros p. apply (submit_blank_field (fetch_server _) (λ f, f) p). right. by left.
Defined.

Lemma submit_sends
    {S : Type} (fetch : request → S → option response * S) (reset : form → form)
    (p : page) (s : S) :
  let f := reservationForm p in
  trim (formName f) ≠ "" → trim (formEmail f) ≠ "" → trim (formPhone f) ≠ "" →
  submit fetch reset p s
  = let '(response, s') := fetch (submission f) s in
    match response with
    | Some res =>
        if response_ok res then
          match response_json res with
          | Some _ =>
              let '(o, s'') := updateAvailability fetch (closeModal reset (alert thanks p)) s' in
              (mkout (after o) (submission f :: sent o) true, s'')
          | None => (mkout (alert sorry p) [submission f] true, s')
          end
        else (mkout (alert sorry p) [submission f] true, s')
    | None => (mkout (alert sorry p) [submission f] true, s')
    end.
Proof.
  intros f Hn He Hp. unfold submit. fold f.
  by rewrite !bool_decide_eq_false_2 by done.
Qed.

Lemma submit_failure_eq
    {S : Type} (fetch : request → S → option response * S) (reset : form → form)
    (p : page) (s s' : S) (response : option response) :
  let f := reservationForm p in
  trim (formName f) ≠ "" → trim (formEmail f) ≠ "" → trim (formPhone f) ≠ "" →
  fetch (submission f) s = (response, s') →
  (response = None
   ∨ ∃ res, response = Some res ∧ (response_ok res = false ∨ response_json res = None)) →
  submit fetch reset p s = (mkout (alert sorry p) [submission f] true, s').
Proof.
  intros f Hn He Hp Hfetch Hres.
  rewrite submit_sends by done. fold f. rewrite Hfetch.
  destruct Hres as [->|(res & -> & [Hok|Hjson])]; [done| |].
  - by rewrite Hok.
  - rewrite Hjson. by destruct (response_ok res).
Qed.

(** When the POST gets no response, a status outside 200 to 299, or a body
    that is not JSON, the visitor is told the reservation failed: the
    modal stays open with the form as typed, the POST is the only request,
    and no refresh is started. *)
Theorem submit_failure
    {S : Type} (fetch : request → S → option response * S) (reset : form → form)
    (p : page) (s s' : S) (response : option response) :
  let f := reservationForm p in
  trim (formName f) ≠ "" → trim (formEmail f) ≠ "" → trim (formPhone f) ≠ "" →
  fetch (submission f) s = (response, s') →
  (response = None
   ∨ ∃ res, response = Some res ∧ (response_ok res = false ∨ response_json res = None)) →
  submit fetch reset p s = (mkout (alert sorry p) [submission f] true, s').
Proof.
  intros f Hn He Hp Hfetch Hres.
  rewrite submit_sends by done. fold f. rewrite Hfetch.
  destruct Hres as [->|(res & -> & [Hok|Hjson])]; [done| |].
  - by rewrite Hok.
  - rewrite Hjson. by destruct (response_ok res).
Qed.

Lemma submit_failure_witness :
  let p := type_in "Ana" "ana@example.org" "300"
             (after (openReservationModal (λ _, "$") 7
                       (loaded (Some (mkdate 2024 6 3)) (Some (mkdate 2024 6 5))))) in
  let e := λ _ : nat, mkworld true "t" in
  submit (fetch_server e) (λ f, f) p (0%nat, boot (mkdb [] 0))
  = (mkout (alert sorry p) [submission (reservationForm p)] true, (1%nat, boot (mkdb [] 0))).
Proof.
  intros p e.
  apply (submit_failure (fetch_server e) (λ f, f) p (0%nat, boot (mkdb [] 0))
           (1%nat, boot (mkdb [] 0))
           (Some (mkres 500 (Json (JError "Error al guardar la reserva")))));
    [by vm_compute | by vm_compute | by vm_compute | by vm_compute |].
  right. eexists. split; [done|]. by left.
Defined.

Lemma app_post (e : world) (b : Body.t) (s : server) :
  app e (POST "/api/reservations" b) s
  = ((post_reservations e b (db s)).1,
     mksrv (post_reservations e b (db s)).2 (catalog s)).
Proof. simpl. by destruct (post_reservations e b (db s)). Qed.

Lemma refresh_against_server
    (e : nat → world) (p : page) (s : nat * server) (ci co : date) :
  rendered p →
  checkInInput p = Some ci → checkOutInput p = Some co →
  MakeDay ci * msPerDay < MakeDay co * msPerDay →
  ∃ c, updateAvailability (fetch_server e) p s
       = (mkout (set_cells c p)
            [GET "/" (Query.mk (Some (toISOString ci)) (Some (toISOString co)))] true,
          (S s.1, s.2))
       ∧ ∀ room, room ∈ rooms → c !! Room.id room = Some error_cell.
Proof.
  intros Hr Hci Hco Hlt.
  rewrite (updateAvailability_valid (fetch_server e) p s ci co) by done.
  cbv zeta. unfold fetch_server. rewrite app_no_route. simpl.
  assert (rendered (set_cells (cells p) p)) as Hr' by done.
  destruct (painted_ok error_cell (set_cells (cells p) p)
              [GET "/" (Query.mk (Some (toISOString ci)) (Some (toISOString co)))] Hr')
    as (c1 & -> & _ & _ & Hcells).
  by exists c1.
Qed.

Lemma room_id_nonzero (room : Room.t) : room ∈ rooms → Room.id room ≠ 0.
Proof.
  intros Hin.
  repeat (apply elem_of_cons in Hin as [->|Hin]; [done|]).
  by apply elem_of_nil in Hin.
Qed.

(** A booking from end to end against the server of [server.js]: the modal
    is opened for a room with a valid pair of dates, the three texts are
    typed, the form is submitted and the engine reports no failure.  The
    table gains one row, with the next key, the room's id, the trimmed
    texts and the two dates as the date fields write them ([yyyy-mm-dd]);
    the page thanks the visitor, closes the modal and resets the form; and
    the refresh that follows is the second and last request. *)
Theorem booking_reaches_store
    (e : nat → world) (formatCOP : Z → string) (reset : form → form)
    (p : page) (n : nat) (srv : server) (room : Room.t) (ci co : date)
    (name email phone : string) :
  rendered p → room ∈ rooms →
  checkInInput p = Some ci → checkOutInput p = Some co →
  MakeDay ci * msPerDay < MakeDay co * msPerDay →
  trim name ≠ "" → trim email ≠ "" → trim phone ≠ "" →
  err (e n) = false → last_rowid (db srv) < MAX_ROWID →
  let opened := after (openReservationModal formatCOP (Room.id room) p) in
  let r := submit (fetch_server e) reset (type_in name email phone opened) (n, srv) in
  let f := mkform (Some (Room.id room)) (date_string ci) (date_string co) name email phone in
  reservations (db r.2.2)
  = reservations (db srv)
    ++ [Reservation.mk (last_rowid (db srv) + 1) (Room.id room) (trim name)
          (trim email) (trim phone) (date_string ci) (date_string co) (now (e n))]
  ∧ r.2.1 = S (S n)
  ∧ sent r.1
    = [submission f; GET "/" (Query.mk (Some (toISOString ci)) (Some (toISOString co)))]
  ∧ modalShown (after r.1) = false
  ∧ reservationForm (after r.1) = reset f
  ∧ alerts (after r.1) = alerts p ++ [thanks].
Proof.
  intros Hr Hin Hci Hco Hlt Hn He Hp Herr Hfull opened r f.
  set (a := mkargs (Room.id room) (trim name) (trim email) (trim phone)
              (date_string ci) (date_string co)).
  set (d1 := mkdb (reservations (db srv) ++ [row_of (last_rowid (db srv) + 1) a (now (e n))])
               (last_rowid (db srv) + 1)).
  set (p0 := mkpage (Some ci) (Some co) (cells p) true
               (Room.name room) (Room.type room) (formatCOP (Room.price room)) f (alerts p)).
  assert (type_in name email phone opened = p0) as Hp0.
  { unfold opened. by rewrite (openReservationModal_opens formatCOP room p ci co). }
  assert (fetch_server e (submission f) (n, srv)
          = (Some (mkres 200 (Json (JId (to_number (last_rowid (db srv) + 1))))),
             (S n, mksrv d1 (catalog srv)))) as Hpost.
  { unfold fetch_server, submission. cbn [fst snd]. rewrite app_post.
    change (Body.mk _ _ _ _ _ _) with (body_of a).
    assert (filled a) as Ha.
    { repeat split; try done; [by apply room_id_nonzero|..]; apply date_string_nonempty. }
    by destruct (post_reservations_step (e n) a (db srv) Ha Herr Hfull) as [-> _]. }
  set (p1 := closeModal reset (alert thanks p0)).
  destruct (refresh_against_server e p1 (S n, mksrv d1 (catalog srv)) ci co)
    as (c & Hrefresh & _); [done..|].
  assert (r = (mkout (set_cells c p1)
                 [submission f;
                  GET "/" (Query.mk (Some (toISOString ci)) (Some (toISOString co)))] true,
               (S (S n), mksrv d1 (catalog srv)))) as ->.
  { unfold r. rewrite Hp0. rewrite submit_sends by done.
    change (reservationForm p0) with f. rewrite Hpost.
    change (response_ok _) with true. cbv iota.
    change (response_json _) with (Some (JId (to_number (last_rowid (db srv) + 1)))). cbv iota.
    fold p1. by rewrite Hrefresh. }
  done.
Qed.

Lemma booking_reaches_store_witness :
  let e := λ _ : nat, mkworld false "2024-05-20 10:00:00" in
  let p := set_cells (foldl (λ c room, <[Room.id room := mkcell "" "availability"]> c)
                        ∅ rooms)
             (loaded (Some (mkdate 2024 6 3)) (Some (mkdate 2024 6 5))) in
  let opened := after (openReservationModal (λ _, "$") 7 p) in
  let r := submit (fetch_server e) (λ f, f) (type_in " Ana " "ana@example.org" "300" opened)
             (0%nat, boot (mkdb [] 0)) in
  reservations (db r.2.2)
  = [ Reservation.mk 1 7 "Ana" "ana@example.org" "300" "2024-06-03" "2024-06-05"
        "2024-05-20 10:00:00" ]
  ∧ modalShown (after r.1) = false.
Proof.
  intros e p opened r.
  pose proof (booking_reaches_store e (λ _, "$") (λ f, f) p 0%nat (boot (mkdb [] 0))
                (Room.mk 7 "Habitación 7" "Con aire acondicionado" true 60000 2)
                (mkdate 2024 6 3) (mkdate 2024 6 5) " Ana " "ana@example.org" "300"
                (rendered_foldl _) ltac:(by do 6 right; left) eq_refl eq_refl
                ltac:(by vm_compute) ltac:(by vm_compute) ltac:(by vm_compute)
                ltac:(by vm_compute) eq_refl ltac:(by vm_compute))
    as (H1 & _ & _ & H2 & _).
  split; [exact H1|exact H2].
Defined.

(** Whatever the dates and whatever the network answers, a refresh touches
    nothing but the text and class of the availability cells of the rooms:
    the date fields, the modal, the form and the alerts are as before, no
    cell appears or disappears, and at most one request is sent. *)
Theorem updateAvailability_frame
    {S : Type} (fetch : request → S → option response * S) (p : page) (s : S) :
  let o := (updateAvailability fetch p s).1 in
  after o = set_cells (cells (after o)) p
  ∧ dom (cells (after o)) = dom (cells p)
  ∧ (∀ k, k ∉ Room.id <$> rooms → cells (after o) !! k = cells p !! k)
  ∧ (length (sent o) ≤ 1)%nat.
Proof. apply updateAvailability_cells_only. Qed.

(** ** Rendering the table *)

(** Whatever cells the page held and whatever the network answers,
    [renderRooms] leaves exactly twelve availability cells, one for each
    room id from 1 to 12; the rest of the page is as it was. *)
Theorem renderRooms_cells
    {S : Type} (fetch : request → S → option response * S) (p : page) (s : S) :
  let o := (renderRooms fetch p s).1 in
  (∀ k, is_Some (cells (after o) !! k) ↔ 1 ≤ k ≤ 12)
  ∧ rendered (after o)
  ∧ after o = set_cells (cells (after o)) p.
Proof.
  intros o. unfold o, renderRooms.
  set (c0 := foldl _ ∅ rooms).
  destruct (updateAvailability_cells_only fetch (set_cells c0 p) s) as (Ha & Hd & _ & _).
  assert (∀ k, is_Some (cells (after (updateAvailability fetch (set_cells c0 p) s).1) !! k)
               ↔ 1 ≤ k ≤ 12) as Hk.
  { intros k. rewrite <- elem_of_dom, Hd. unfold c0. simpl.
    rewrite !dom_insert_L, dom_empty_L.
    rewrite !elem_of_union, !elem_of_singleton, elem_of_empty. lia. }
  split; [done|]. split.
  - intros room Hin. apply Hk.
    repeat (apply elem_of_cons in Hin as [->|Hin]; [simpl; lia|]).
    by apply elem_of_nil in Hin.
  - rewrite Ha at 1. by destruct p.
Qed.

(** * The contact form *)

Lemma string_app_cons (c : ascii) (s t : string) :
  String c s +:+ t = String c (s +:+ t).
Proof. done. Qed.

Lemma encodeURIComponent_app (s t : string) :
  encodeURIComponent (s +:+ t) = encodeURIComponent s +:+ encodeURIComponent t.
Proof.
  induction s as [|c s IH]; [done|].
  rewrite string_app_cons. simpl. rewrite IH. by destruct (unreserved c).
Qed.

Lemma count_byte_app (c : ascii) (s t : string) :
  count_byte c (s +:+ t) = (count_byte c s + count_byte c t)%nat.
Proof.
  induction s as [|c1 s IH]; [done|].
  rewrite string_app_cons. simpl. rewrite IH. lia.
Qed.

Lemma code_hex (n : Z) :
  0 ≤ n < 16 → code (hex n) = if n <? 10 then 48 + n else 55 + n.
Proof.
  intros Hn. unfold code, hex. rewrite N_ascii_embedding.
  - rewrite Z2N.id; [done|]. case_match; lia.
  - case_match; lia.
Qed.

Lemma code_bounds (c : ascii) : 0 ≤ code c < 256.
Proof.
  unfold code. pose proof (N_ascii_bounded c). lia.
Qed.

Lemma code_inj (c1 c2 : ascii) : code c1 = code c2 → c1 = c2.
Proof.
  unfold code. intros H. apply N2Z.inj in H.
  rewrite <- (ascii_N_embedding c1), <- (ascii_N_embedding c2). by rewrite H.
Qed.

Lemma unreserved_hex (n : Z) : 0 ≤ n < 16 → unreserved (hex n) = true.
Proof.
  intros Hn. unfold unreserved. rewrite code_hex by done.
  destruct (Z.ltb_spec n 10).
  - replace ((48 <=? 48 + n) && (48 + n <=? 57)) with true by lia.
    by rewrite orb_true_r.
  - replace ((65 <=? 55 + n) && (55 + n <=? 90)) with true by lia. done.
Qed.

Lemma count_byte_encodeURIComponent (c : ascii) (s : string) :
  escaped c → count_byte c (encodeURIComponent s) = 0%nat.
Proof.
  intros [Hc Hp]. induction s as [|c1 s IH]; [done|]. simpl.
  pose proof (code_bounds c1).
  destruct (unreserved c1) eqn:Hc1; simpl.
  - rewrite IH. case_decide; [congruence|done].
  - rewrite IH.
    assert (0 ≤ code c1 / 16 < 16) by (Z.div_mod_to_equations; lia).
    assert (0 ≤ code c1 mod 16 < 16) by (Z.div_mod_to_equations; lia).
    repeat case_decide; try done; subst;
      rewrite ?unreserved_hex in Hc by done; done.
Qed.

(** A contact message whose name, e-mail or message is empty or made of
    spaces, tabs or line breaks only is refused: the alert asks for them,
    the window goes nowhere and the form keeps what was typed.  The phone
    is not required. *)
Theorem contact_submit_blank_field (reset : contact → contact) (f : contact) :
  blank (contactName f) = true ∨ blank (contactEmail f) = true
  ∨ blank (contactMessage f) = true →
  contact_submit reset f = mkcout None complete_contact f.
Proof.
  intros H. unfold contact_submit.
  destruct H as [H|[H|H]]; apply trim_blank in H; rewrite H; simpl;
    by rewrite ?orb_true_r.
Qed.

Lemma contact_submit_blank_field_witness :
  let f := mkcontact "Ana" "ana@example.org" "300" "  " in
  contact_submit (λ _, mkcontact "" "" "" "") f = mkcout None complete_contact f.
Proof.
  intros f. apply (contact_submit_blank_field _ f). right. by right.
Defined.

Lemma contact_submit_link (reset : contact → contact) (f : contact) :
  trim (contactName f) ≠ "" → trim (contactEmail f) ≠ "" →
  trim (contactMessage f) ≠ "" →
  contact_submit reset f
  = mkcout
      (Some ("mailto:casarubiataganga@gmail.com?subject=Consulta%20desde%20el%20sitio%20web&body=Nombre%3A%20"
             +:+ encodeURIComponent (trim (contactName f))
             +:+ "%250ACorreo%3A%20" +:+ encodeURIComponent (trim (contactEmail f))
             +:+ "%250ATel%C3%A9fono%3A%20" +:+ encodeURIComponent (trim (contactPhone f))
             +:+ "%250A%250AMensaje%3A%250A"
             +:+ encodeURIComponent (trim (contactMessage f))))
      contact_thanks (reset f).
Proof.
  intros Hn He Hm. unfold contact_submit.
  rewrite !bool_decide_eq_false_2 by done. simpl orb. cbv iota.
  unfold mailto_body. rewrite !encodeURIComponent_app.
  done.
Qed.

(** With name, e-mail and message given, the window is sent to a
    [mailto:] link for the hotel's address whose subject is the fixed
    text and whose body lists the four trimmed texts, each
    percent-encoded; the [%0A] separators of the template are encoded
    too and arrive as [%250A].  The form is then reset. *)
Theorem contact_link_shape (reset : contact → contact) (f : contact) :
  trim (contactName f) ≠ "" → trim (contactEmail f) ≠ "" →
  trim (contactMessage f) ≠ "" →
  href (contact_submit reset f)
  = Some ("mailto:casarubiataganga@gmail.com?subject=Consulta%20desde%20el%20sitio%20web&body=Nombre%3A%20"
          +:+ encodeURIComponent (trim (contactName f))
          +:+ "%250ACorreo%3A%20" +:+ encodeURIComponent (trim (contactEmail f))
          +:+ "%250ATel%C3%A9fono%3A%20" +:+ encodeURIComponent (trim (contactPhone f))
          +:+ "%250A%250AMensaje%3A%250A"
          +:+ encodeURIComponent (trim (contactMessage f)))
  ∧ shown (contact_submit reset f) = contact_thanks
  ∧ contact_after (contact_submit reset f) = reset f.
Proof. intros Hn He Hm. by rewrite contact_submit_link. Qed.

Lemma contact_link_shape_witness :
  href (contact_submit (λ _, mkcontact "" "" "" "")
          (mkcontact " Ana María " "a@b.co" "" "Hola & adiós?"))
  = Some "mailto:casarubiataganga@gmail.com?subject=Consulta%20desde%20el%20sitio%20web&body=Nombre%3A%20Ana%20Mar%C3%ADa%250ACorreo%3A%20a%40b.co%250ATel%C3%A9fono%3A%20%250A%250AMensaje%3A%250AHola%20%26%20adi%C3%B3s%3F".
Proof.
  refine (eq_trans (proj1 (contact_link_shape (λ _, mkcontact "" "" "" "")
                     (mkcontact " Ana María " "a@b.co" "" "Hola & adiós?")
                     ltac:(by vm_compute) ltac:(by vm_compute) ltac:(by vm_compute))) _).
  by vm_compute.
Defined.

(** Nothing typed in the form can add a field to the link: whatever the
    four texts, the link has exactly one [?] and one [&] (those of the
    template) and no space, line break, [#] or [=] beyond the template's
    two [=]. *)
Theorem contact_link_delimiters (reset : contact → contact) (f : contact) :
  trim (contactName f) ≠ "" → trim (contactEmail f) ≠ "" →
  trim (contactMessage f) ≠ "" →
  ∃ link, href (contact_submit reset f) = Some link
          ∧ count_byte "?" link = 1%nat
          ∧ count_byte "&" link = 1%nat
          ∧ count_byte "=" link = 2%nat
          ∧ count_byte " " link = 0%nat
          ∧ count_byte "#" link = 0%nat
          ∧ count_byte "010" link = 0%nat.
Proof.
  intros Hn He Hm. rewrite contact_submit_link by done. eexists. split; [done|].
  rewrite !count_byte_app.
  rewrite !count_byte_encodeURIComponent by (by split).
  by vm_compute.
Qed.

Lemma contact_link_delimiters_witness :
  ∃ link, href (contact_submit (λ _, mkcontact "" "" "" "")
                  (mkcontact "Ana" "a@b.co" "" "Hola&cc=x@y.z?subject=spam")) = Some link
          ∧ count_byte "?" link = 1%nat
          ∧ count_byte "&" link = 1%nat
          ∧ count_byte "=" link = 2%nat
          ∧ count_byte " " link = 0%nat
          ∧ count_byte "#" link = 0%nat
          ∧ count_byte "010" link = 0%nat.
Proof.
  apply (contact_link_delimiters (λ _, mkcontact "" "" "" "")
           (mkcontact "Ana" "a@b.co" "" "Hola&cc=x@y.z?subject=spam"));
    by vm_compute.
Defined.

Lemma encodeURIComponent_inj (s t : string) :
  encodeURIComponent s = encodeURIComponent t → s = t.
Proof.
  revert t. induction s as [|c s IH]; intros [|c1 t]; simpl.
  - done.
  - by destruct (unreserved c1).
  - by destruct (unreserved c).
  - pose proof (code_bounds c) as Hb. pose proof (code_bounds c1) as Hb1.
    destruct (unreserved c) eqn:Hc, (unreserved c1) eqn:Hc1; intros Heq.
    + injection Heq as -> Heq. f_equal. by apply IH.
    + injection Heq as -> Heq. done.
    + injection Heq as <- Heq. done.
    + injection Heq as H1 H2 Heq. f_equal; [|by apply IH].
      apply (f_equal code) in H1, H2.
      rewrite !code_hex in H1, H2 by (Z.div_mod_to_equations; lia).
      apply code_inj. revert H1 H2.
      repeat case_match; Z.div_mod_to_equations; lia.
Qed.

(** * Further compositions *)

(** The store validates no range: a query whose range is empty or inverted
    ([b <= a]) is answered 200 like any other, with the rows that start
    before [b] and end after [a], each as JavaScript reads it (unchanged
    when its two integers are at most [2^53]). *)
Theorem get_reservations_inverted_range (e : world) (d : database) (a b : string) :
  err e = false → a ≠ "" → b ≠ "" → (b ≤ a)%string →
  ∃ rows,
    get_reservations e (Query.mk (Some a) (Some b)) d
    = mkres 200 (Json (JRows (js_row <$> rows)))
    ∧ (∀ r, r ∈ rows ↔
            r ∈ reservations d
            ∧ (Reservation.checkIn r < b)%string ∧ (a < Reservation.checkOut r)%string)
    ∧ (Forall (λ r, Z.abs (Reservation.id r) ≤ 2 ^ 53
                    ∧ Z.abs (Reservation.roomId r) ≤ 2 ^ 53) rows →
       get_reservations e (Query.mk (Some a) (Some b)) d = mkres 200 (Json (JRows rows))).
Proof.
  intros He Ha Hb Hba. rewrite get_reservations_range by done.
  unfold db_all. rewrite He. eexists. split; [done|]. split.
  - intros r. rewrite list_elem_of_filter. simpl.
    rewrite !str_lt_not_ge. unfold str_ge. tauto.
  - intros Hsmall. by rewrite js_rows_small.
Qed.

Lemma get_reservations_inverted_range_witness :
  let d := mkdb [ Reservation.mk 1 1 "Ana" "ana@example.org" "300" "2024-06-01" "2024-06-09" "t";
                  Reservation.mk 2 1 "Luz" "luz@example.org" "301" "2024-06-04" "2024-06-06" "t" ] 2 in
  ∃ rows,
    get_reservations (mkworld false "t") (Query.mk (Some "2024-06-07") (Some "2024-06-03")) d
    = mkres 200 (Json (JRows (js_row <$> rows)))
    ∧ (∀ r, r ∈ rows ↔
            r ∈ reservations d
            ∧ (Reservation.checkIn r < "2024-06-03")%string
            ∧ ("2024-06-07" < Reservation.checkOut r)%string)
    ∧ (Forall (λ r, Z.abs (Reservation.id r) ≤ 2 ^ 53
                    ∧ Z.abs (Reservation.roomId r) ≤ 2 ^ 53) rows →
       get_reservations (mkworld false "t")
         (Query.mk (Some "2024-06-07") (Some "2024-06-03")) d
       = mkres 200 (Json (JRows rows))).
Proof.
  intros d.
  apply (get_reservations_inverted_range (mkworld false "t") d "2024-06-07" "2024-06-03");
    [reflexivity | discriminate | discriminate | by vm_compute].
Defined.

(** The listing after a run: the rows the table held, followed by one row
    for each key announced during the run, in the order of the
    announcements; rows and keys as JavaScript reads them, which is as
    they are stored when the integers are at most [2^53]. *)
Theorem listing_after_run
    (e : world) (reqs : list (world * request)) (s : server) :
  err e = false →
  ∃ new,
    reservations (db (serve reqs s).2) = reservations (db s) ++ new
    ∧ get_reservations e (Query.mk None None) (db (serve reqs s).2)
      = mkres 200 (Json (JRows (js_row <$> (reservations (db s) ++ new))))
    ∧ Reservation.id <$> (js_row <$> new) = omap announced (serve reqs s).1
    ∧ (Forall (λ r, Z.abs (Reservation.id r) ≤ 2 ^ 53
                    ∧ Z.abs (Reservation.roomId r) ≤ 2 ^ 53) (reservations (db s) ++ new) →
       get_reservations e (Query.mk None None) (db (serve reqs s).2)
       = mkres 200 (Json (JRows (reservations (db s) ++ new)))
       ∧ Reservation.id <$> new = omap announced (serve reqs s).1).
Proof.
  intros He. destruct (serve_rows reqs s) as (new & _ & Hrows & Hann & _ & _).
  exists new.
  assert (get_reservations e (Query.mk None None) (db (serve reqs s).2)
          = mkres 200 (Json (JRows (js_row <$> (reservations (db s) ++ new))))) as Hget.
  { unfold get_reservations, db_all. simpl. rewrite He.
    by rewrite filter_NoWhere, Hrows. }
  assert (Reservation.id <$> (js_row <$> new) = omap announced (serve reqs s).1) as Hids.
  { rewrite Hann, <- !list_fmap_compose. by apply list_fmap_ext. }
  split; [done|]. split; [done|]. split; [done|].
  intros Hsmall. rewrite Hget, <- Hids.
  rewrite js_rows_small by done.
  apply Forall_app in Hsmall as [_ Hnew]. by rewrite js_rows_small.
Qed.

Lemma listing_after_run_witness :
  let e := mkworld false "2024-05-20 10:00:00" in
  let reqs := [ (e, POST "/api/reservations"
                      (body_of (mkargs 1 "Ana" "ana@example.org" "300" "2024-06-01" "2024-06-03")));
                (mkworld true "t", POST "/api/reservations"
                      (body_of (mkargs 2 "Luz" "luz@example.org" "301" "2024-06-02" "2024-06-04"))) ] in
  ∃ new,
    reservations (db (serve reqs (boot (mkdb [] 0))).2)
    = reservations (db (boot (mkdb [] 0))) ++ new
    ∧ get_reservations e (Query.mk None None) (db (serve reqs (boot (mkdb [] 0))).2)
      = mkres 200 (Json (JRows (js_row <$> (reservations (db (boot (mkdb [] 0))) ++ new))))
    ∧ Reservation.id <$> (js_row <$> new) = omap announced (serve reqs (boot (mkdb [] 0))).1.
Proof.
  intros e reqs.
  destruct (listing_after_run e reqs (boot (mkdb [] 0)) eq_refl) as (new & H1 & H2 & H3 & _).
  by exists new.
Defined.

(** The two date checks of the page agree: on a page whose modal is
    closed, the modal opens for a room of the catalog exactly when a
    refresh would send its request. *)
Theorem modal_opens_iff_refresh_queries
    {S : Type} (fetch : request → S → option response * S) (formatCOP : Z → string)
    (p : page) (s : S) (room : Room.t) :
  room ∈ rooms → modalShown p = false →
  modalShown (after (openReservationModal formatCOP (Room.id room) p)) = true
  ↔ sent (updateAvailability fetch p s).1 ≠ [].
Proof.
  intros Hin Hclosed.
  destruct (checkInInput p) as [ci|] eqn:Hci; [destruct (checkOutInput p) as [co|] eqn:Hco|].
  - destruct (Z.le_gt_cases (MakeDay co * msPerDay) (MakeDay ci * msPerDay)) as [Hle|Hlt].
    + rewrite (updateAvailability_inverted fetch p s ci co) by done.
      rewrite (openReservationModal_inverted formatCOP _ p ci co) by done.
      simpl. rewrite sent_painted, Hclosed. naive_solver.
    + rewrite (updateAvailability_request fetch p s ci co) by done.
      rewrite (openReservationModal_opens formatCOP room p ci co) by done.
      simpl. naive_solver.
  - rewrite updateAvailability_empty_field_eq by (by right).
    rewrite openReservationModal_empty_field_eq by (by right).
    simpl. rewrite Hclosed. naive_solver.
  - rewrite updateAvailability_empty_field_eq by (by left).
    rewrite openReservationModal_empty_field_eq by (by left).
    simpl. rewrite Hclosed. naive_solver.
Qed.

Lemma modal_opens_iff_refresh_queries_witness :
  let p := loaded (Some (mkdate 2024 6 3)) (Some (mkdate 2024 6 5)) in
  modalShown (after (openReservationModal (λ _, "$") 7 p)) = true
  ↔ sent (updateAvailability (fetch_server (λ _, mkworld false "t")) p
            (0%nat, boot (mkdb [] 0))).1 ≠ [].
Proof.
  intros p.
  apply (modal_opens_iff_refresh_queries (fetch_server (λ _, mkworld false "t")) (λ _, "$") p
           (0%nat, boot (mkdb [] 0))
           (Room.mk 7 "Habitación 7" "Con aire acondicionado" true 60000 2));
    [by do 6 right; left | reflexivity].
Defined.

(** A submission the server refuses: when the form holds no room id (the
    server answers 400), or the engine reports a failure or has used its
    last key (500), the visitor is told the reservation failed, the modal
    stays open with the form as typed, the store is unchanged and no
    refresh follows. *)
Theorem submit_rejected_by_server
    (e : nat → world) (reset : form → form) (p : page) (n : nat) (srv : server) :
  let f := reservationForm p in
  trim (formName f) ≠ "" → trim (formEmail f) ≠ "" → trim (formPhone f) ≠ "" →
  formRoomId f = None ∨ err (e n) = true ∨ MAX_ROWID ≤ last_rowid (db srv) →
  submit (fetch_server e) reset p (n, srv)
  = (mkout (alert sorry p) [submission f] true, (S n, srv)).
Proof.
  intros f Hn He Hp Hrej.
  assert (∃ res, fetch_server e (submission f) (n, srv) = (Some res, (S n, srv))
                 ∧ response_ok res = false) as (res & Hfetch & Hok).
  { unfold fetch_server, submission. cbn [fst snd]. rewrite app_post.
    unfold post_reservations.
    destruct (required _) as [a|] eqn:Hreq.
    - destruct Hrej as [Hnone|Hfail].
      { unfold required in Hreq. by rewrite Hnone in Hreq. }
      rewrite stmt_run_fail by done. simpl. destruct srv. by eexists.
    - simpl. destruct srv. by eexists. }
  apply (submit_failure_eq (fetch_server e) reset p (n, srv) (S n, srv) (Some res));
    [done..|]. right. exists res. split; [done|]. by left.
Qed.

Lemma submit_rejected_by_server_witness :
  let p := type_in "Ana" "ana@example.org" "300"
             (loaded (Some (mkdate 2024 6 3)) (Some (mkdate 2024 6 5))) in
  let e := λ _ : nat, mkworld false "t" in
  submit (fetch_server e) (λ f, f) p (0%nat, boot (mkdb [] 0))
  = (mkout (alert sorry p) [submission (reservationForm p)] true, (1%nat, boot (mkdb [] 0))).
Proof.
  intros p e.
  apply (submit_rejected_by_server e (λ f, f) p 0%nat (boot (mkdb [] 0)));
    [by vm_compute | by vm_compute | by vm_compute | by left].
Defined.
